(** * VacDevice: status accessors, command encoding and map rendering

    A shallow embedding of [custom_components/weback_vacuum/vacdevice.py].
    The class [VacDevice] extends [WebackWssCtrl] (module [webackapi]) and
    uses [VacMap] and [VacMapDraw] (module [vacmap]); both modules lie
    outside the file, so the constants, the transport and the drawing
    primitives they provide appear here as the fields of two interfaces. *)

From Stdlib Require Import ZArith Ascii String List Lia Bool.
From Stdlib Require Import Decimal DecimalString DecimalPos DecimalN DecimalZ.
From stdpp Require Import base option list gmap strings.

Set Warnings "-register-all".
Local Open Scope string_scope.
Local Open Scope list_scope.
Local Open Scope Z_scope.

(** ** Python values *)

Module Py.

(** The scalars a JSON status report carries: [null], booleans, integers
    and strings.  Strings are byte strings; the status keys and values of
    the device are ASCII text. *)
Inductive scalar : Type :=
  | SNone
  | SBool (b : bool)
  | SInt (z : Z)
  | SStr (s : string).

(** Values put into a command payload: a scalar, a list, or a dictionary
    with string keys. *)
Inductive value : Type :=
  | VScalar (s : scalar)
  | VList (l : list value)
  | VDict (d : gmap string value).

Definition VInt (z : Z) : value := VScalar (SInt z).
Definition VStr (s : string) : value := VScalar (SStr s).

(** The exceptions the modelled code can raise.  [TransportError] stands
    for whatever [send_command] raises. *)
Inductive exn : Type :=
  | KeyError (key : string)
  | IndexError
  | ValueError
  | TypeError
  | OverflowError
  | ZeroDivisionError
  | TransportError (code : Z).

Inductive result (A : Type) : Type :=
  | Ok (a : A)
  | Raise (e : exn).
Arguments Ok {A} a.
Arguments Raise {A} e.

Definition rbind {A B} (r : result A) (k : A -> result B) : result B :=
  match r with
  | Ok a => k a
  | Raise e => Raise e
  end.

Notation "'do' x <- e ; k" := (rbind e (fun x => k))
  (at level 10, x name, e at level 100, k at level 200,
   format "'[v' 'do'  x  <-  e ; '/' k ']'").

(** [a == b] on scalars: [bool] is a subtype of [int] ([True == 1]),
    values of unrelated types are never equal. *)
Definition int_of_bool (b : bool) : Z := if b then 1 else 0.

Definition py_eq (a b : scalar) : bool :=
  match a, b with
  | SNone, SNone => true
  | SBool x, SBool y => Bool.eqb x y
  | SBool x, SInt y => int_of_bool x =? y
  | SInt x, SBool y => x =? int_of_bool y
  | SInt x, SInt y => x =? y
  | SStr x, SStr y => String.eqb x y
  | _, _ => false
  end.

(** [a in c] for a collection [c] of scalars (set, list or tuple). *)
Definition py_in (a : scalar) (c : list scalar) : bool :=
  existsb (py_eq a) c.

(** [d[k]] on a dictionary. *)
Definition getitem {V} (d : gmap string V) (k : string) : result V :=
  match d !! k with
  | Some v => Ok v
  | None => Raise (KeyError k)
  end.

(** [l[i]] on a list, for a non-negative constant index. *)
Definition list_getitem {V} (l : list V) (i : nat) : result V :=
  match l !! i with
  | Some v => Ok v
  | None => Raise IndexError
  end.

(** A dictionary display [{k1: v1, ..., kn: vn}]: the pairs are inserted
    from left to right, a later key overrides an equal earlier one. *)
Definition dict_display {V} (kvs : list (string * V)) : gmap string V :=
  foldl (fun d kv => <[kv.1 := kv.2]> d) ∅ kvs.

(** *** [int(s)] on a string

    Base-10 conversion of a string of ASCII characters: optional white
    space, an optional sign, decimal digits in which single underscores
    may separate digits, optional white space.  White space is the C set
    (tab, line feed, vertical tab, form feed, carriage return, space).  A
    string with more than [max_str_digits] digits is refused, as the
    interpreter does by default.  Strings with characters outside ASCII,
    where the interpreter also accepts other decimal digits and other
    white space, are outside this model: every statement about [int] on a
    string carries [ascii_only]. *)

Definition code (c : ascii) : Z := Z.of_N (N_of_ascii c).

Definition is_space (c : ascii) : bool :=
  ((9 <=? code c) && (code c <=? 13)) || (code c =? 32).

Definition is_digit (c : ascii) : bool := (48 <=? code c) && (code c <=? 57).

Definition digit_val (c : ascii) : option Z :=
  if is_digit c then Some (code c - 48) else None.

Definition is_underscore (c : ascii) : bool := code c =? 95.

Fixpoint skip_spaces (s : string) : string :=
  match s with
  | String c s' => if is_space c then skip_spaces s' else s
  | EmptyString => s
  end.

(** The digit scan: [acc] is the value read so far, [prev_us] tells that
    the previous character was an underscore.  The scan stops at the first
    character that is neither a digit nor an underscore and fails on a
    doubled or a trailing underscore. *)
Fixpoint scan_digits (acc : Z) (prev_us : bool) (s : string)
  : option (Z * string) :=
  match s with
  | String c s' =>
      match digit_val c with
      | Some d => scan_digits (10 * acc + d) false s'
      | None =>
          if is_underscore c
          then (if prev_us then None else scan_digits acc true s')
          else (if prev_us then None else Some (acc, s))
      end
  | EmptyString => if prev_us then None else Some (acc, s)
  end.

(** The literal must start with a digit. *)
Definition scan_number (s : string) : option (Z * string) :=
  match s with
  | String c s' =>
      match digit_val c with
      | Some d => scan_digits d false s'
      | None => None
      end
  | EmptyString => None
  end.

Definition split_sign (s : string) : Z * string :=
  match s with
  | String c s' =>
      if code c =? 43 then (1, s')
      else if code c =? 45 then (-1, s')
      else (1, s)
  | EmptyString => (1, s)
  end.

(** The scan of the whole string, before the limit on the digits. *)
Definition parse_int (s : string) : result Z :=
  let '(sign, body) := split_sign (skip_spaces s) in
  match scan_number body with
  | Some (n, rest) =>
      match skip_spaces rest with
      | EmptyString => Ok (sign * n)
      | String _ _ => Raise ValueError
      end
  | None => Raise ValueError
  end.

(** The default of [sys.get_int_max_str_digits()]. *)
Definition max_str_digits : N := 4300.

Fixpoint count_digits (s : string) : N :=
  match s with
  | String c s' => ((if is_digit c then 1 else 0) + count_digits s')%N
  | EmptyString => 0%N
  end.

Definition int_of_string (s : string) : result Z :=
  if (max_str_digits <? count_digits s)%N then Raise ValueError
  else parse_int s.



(** [int(v)] on a scalar. *)
Definition py_int (v : scalar) : result Z :=
  match v with
  | SNone => Raise TypeError
  | SBool b => Ok (int_of_bool b)
  | SInt z => Ok z
  | SStr s => int_of_string s
  end.

(** *** The written form of an integer

    What [int] accepts, stated as a grammar and apart from the scanner:
    white space, an optional sign, groups of digits separated by single
    underscores, white space, and no more digits than the limit. *)

Fixpoint all_spaces (s : string) : bool :=
  match s with
  | String c s' => is_space c && all_spaces s'
  | EmptyString => true
  end.

Inductive digit_groups : string -> Prop :=
  | groups_one (c : ascii) :
      is_digit c = true -> digit_groups (String c EmptyString)
  | groups_more (c : ascii) (s : string) :
      is_digit c = true -> digit_groups s -> digit_groups (String c s)
  | groups_sep (c : ascii) (s : string) :
      is_digit c = true -> digit_groups s ->
      digit_groups (String c (String "_" s)).

Definition sign_prefix (s : string) : Prop := s = EmptyString \/ s = "+" \/ s = "-".

Definition written_integer (s : string) : Prop :=
  exists ws1 sg body ws2,
    s = String.append ws1 (String.append sg (String.append body ws2))
    /\ all_spaces ws1 = true /\ sign_prefix sg
    /\ digit_groups body /\ all_spaces ws2 = true.

Definition int_literal (s : string) : Prop :=
  written_integer s /\ (count_digits s <= max_str_digits)%N.


(** What may follow a digit ([false]) or an underscore ([true]) inside a
    written integer. *)
Inductive groups_tail : bool -> string -> Prop :=
  | tail_end : groups_tail false EmptyString
  | tail_digit (p : bool) (c : ascii) (s : string) :
      is_digit c = true -> groups_tail false s -> groups_tail p (String c s)
  | tail_us (s : string) :
      groups_tail true s -> groups_tail false (String "_" s).

(** *** True division of integers and [int(x)] on a float

    [a / b] on two integers is the binary64 number nearest to the exact
    quotient (ties to the even significand); a finite binary64 number is
    kept as a signed significand and a binary exponent. *)

Record float64 : Type := Float64 { significand : Z; exponent : Z }.

(** [n / d] rounded to the nearest integer, ties to even ([0 <= n],
    [0 < d]). *)
Definition rne_div (n d : Z) : Z :=
  let q := n / d in
  let r := n mod d in
  if 2 * r <? d then q
  else if d <? 2 * r then q + 1
  else if Z.even q then q else q + 1.

Definition pow2 (k : Z) : Z := 2 ^ Z.max 0 k.

(** [b * 2^k <= a], for [k] of either sign. *)
Definition scaled_le (b k a : Z) : bool := b * pow2 k <=? a * pow2 (- k).

(** The exponent of the quotient of two positive integers: the [e] with
    [2^52 <= a / (b * 2^e) < 2^53], not below the subnormal exponent. *)
Definition quotient_exponent (a b : Z) : Z :=
  let k := Z.log2 a - Z.log2 b in
  let fl := if scaled_le b k a then k else k - 1 in
  Z.max (fl - 52) (-1074).

Definition truediv_pos (a b : Z) : result float64 :=
  let e := quotient_exponent a b in
  let m := rne_div (a * pow2 (- e)) (b * pow2 e) in
  if (0 <=? e) && (2 ^ 1024 <=? m * 2 ^ e) then Raise OverflowError
  else Ok (Float64 m e).

Definition fneg (f : float64) : float64 :=
  Float64 (- significand f) (exponent f).

Definition py_truediv (a b : Z) : result float64 :=
  if b =? 0 then Raise ZeroDivisionError
  else if a =? 0 then Ok (Float64 0 0)
  else
    rbind (truediv_pos (Z.abs a) (Z.abs b))
      (fun f => Ok (if Z.sgn a * Z.sgn b <? 0 then fneg f else f)).

(** [int(f)]: truncation toward zero. *)
Definition int_of_float (f : float64) : Z :=
  if 0 <=? exponent f then significand f * 2 ^ exponent f
  else Z.quot (significand f) (2 ^ (- exponent f)).

End Py.


Import Py.

(** ** The base class and the transport

    [WebackWssCtrl] supplies the protocol constants and [send_command].
    Their values are not fixed here: every result below holds for each
    choice of them.  Status and payload constants are scalars, payload
    keys are strings, the three [vacuum_or_mop] codes are integers.
    [send_command_reply] is the outcome of a delivery (it returns, or the
    transport raises). *)
Class WebackWssCtrl : Type := {
  IDLE_MODE : scalar;
  CLEANING_STATES : list scalar;
  CHARGING_STATES : list scalar;
  FAN_DISABLED : scalar;
  MOP_DISABLED : scalar;
  FAN_SPEEDS : list scalar;
  MOP_SPEEDS : list scalar;
  SWITCH_VALUES : list scalar;
  MOP_ON : Z;
  VACUUM_ON : Z;
  NO_FAN_NO_MOP : Z;
  ASK_STATUS : string;
  SET_FAN_SPEED : string;
  GOTO_POINT : string;
  RECTANGLE_INFO : string;
  VOICE_SWITCH : string;
  UNDISTURB_MODE : string;
  SELECTED_ZONE : string;
  PLANNING_RECT_POINT_NUM : string;
  PLANNING_RECT_X : string;
  PLANNING_RECT_Y : string;
  CLEAN_MODE_AUTO : scalar;
  CHARGE_MODE_RETURNING : scalar;
  CLEAN_MODE_STOP : scalar;
  CLEAN_MODE_SPOT : scalar;
  CLEAN_MODE_ROOMS : scalar;
  ROBOT_LOCATION_SOUND : scalar;
  ROBOT_PLANNING_LOCATION : scalar;
  ROBOT_PLANNING_RECT : scalar;
  send_command_reply : string -> string -> gmap string value -> result unit;
}.

(** ** Maps and their drawing *)

Definition point : Type := Z * Z.
Definition colour : Type := Z.
Definition image : Type := gmap point colour.

(** What the description of the rendering leaves open: the decoded grid
    and its base layer, the shape of the two markers, the rasterisation of
    one path segment, and the raster encoder. *)
Class MapDrawing : Type := {
  grid : Type;
  base_layer : grid -> image;
  charger_marker : point -> list (point * colour);
  path_segment : point -> point -> list (point * colour);
  robot_marker : point -> list (point * colour);
  png_encode : image -> list Byte.byte;
}.

Section Vacmap.
Context `{MapDrawing}.

(** Modelled from the spec: the class [VacMap] of module [vacmap], which is
    not among the sources.  A map is the decoded grid, the charger and
    robot positions and the path in temporal order; it is immutable once
    constructed. *)
Record VacMap : Type := {
  map_grid : grid;
  charger_position : point;
  robot_position : point;
  path : list point;
}.

(** Modelled from the spec: the class [VacMapDraw] of module [vacmap],
    which is not among the sources.  A drawing holds the map it was
    created for and the image painted so far. *)
Record VacMapDraw : Type := {
  draw_map : VacMap;
  draw_image : image;
}.

(** Modelled from the spec: painting a list of pixels over an image (a
    stage of [VacMapDraw] only adds pixels). *)
Definition overlay (marks : list (point * colour)) (img : image) : image :=
  foldl (fun im pc => <[pc.1 := pc.2]> im) img marks.

(** Modelled from the spec: the constructor of [VacMapDraw], the base
    layer from the grid. *)
Definition VacMapDraw_init (m : VacMap) : VacMapDraw :=
  {| draw_map := m; draw_image := base_layer (map_grid m) |}.

(** Modelled from the spec: [VacMapDraw.draw_charger_point], the charger
    marker at the charger position. *)
Definition draw_charger_point (d : VacMapDraw) : VacMapDraw :=
  {| draw_map := draw_map d;
     draw_image :=
       overlay (charger_marker (charger_position (draw_map d))) (draw_image d) |}.

(** Modelled from the spec: the path as connected line segments through
    the points in sequence order. *)
Fixpoint path_marks (pts : list point) : list (point * colour) :=
  match pts with
  | a :: rest =>
      match rest with
      | b :: _ => path_segment a b ++ path_marks rest
      | [] => []
      end
  | [] => []
  end.

(** Modelled from the spec: [VacMapDraw.draw_path]. *)
Definition draw_path (d : VacMapDraw) : VacMapDraw :=
  {| draw_map := draw_map d;
     draw_image := overlay (path_marks (path (draw_map d))) (draw_image d) |}.

(** Modelled from the spec: [VacMapDraw.draw_robot_position], the robot
    marker at the robot position. *)
Definition draw_robot_position (d : VacMapDraw) : VacMapDraw :=
  {| draw_map := draw_map d;
     draw_image :=
       overlay (robot_marker (robot_position (draw_map d))) (draw_image d) |}.

(** Modelled from the spec: [VacMapDraw.get_image]. *)
Definition get_image (d : VacMapDraw) : image := draw_image d.

End Vacmap.

(** ** The device *)

Section VacDevice.
Context `{WebackWssCtrl} `{MapDrawing}.

(** The instance attributes set by [__init__]. *)
Record VacDevice : Type := {
  name : string;
  nickname : string;
  sub_type : string;
  robot_status : gmap string scalar;
  map : option VacMap;
  map_image_buffer : option (list Byte.byte);
  map_camera : option nat;
}.

(** The device together with what its collaborators have received: the
    calls of [send_command] (thing name, sub type, payload) and the cameras
    asked to refresh, both in call order. *)
Record world : Type := {
  self : VacDevice;
  sent : list (string * string * gmap string value);
  camera_updates : list nat;
}.

(** Methods run on a world; an exception leaves the effects made before
    it in place. *)
Definition M (A : Type) : Type := world -> result A * world.

Definition m_ret {A} (a : A) : M A := fun w => (Ok a, w).

Definition m_bind {A B} (m : M A) (k : A -> M B) : M B :=
  fun w =>
    match m w with
    | (Ok a, w') => k a w'
    | (Raise e, w') => (Raise e, w')
    end.

Notation "'run' x <- e ; k" := (m_bind e (fun x => k))
  (at level 10, x name, e at level 100, k at level 200,
   format "'[v' 'run'  x  <-  e ; '/' k ']'").

Definition get_self : M VacDevice := fun w => (Ok (self w), w).

Definition lift {A} (r : result A) : M A := fun w => (r, w).

(** [self.send_command(name, sub_type, payload)]: the call is recorded,
    its outcome is the transport's. *)
Definition with_sent (w : world) (cmd : string * string * gmap string value)
  : world :=
  {| self := self w;
     sent := sent w ++ [cmd];
     camera_updates := camera_updates w |}.

Definition send_command (n st : string) (payload : gmap string value)
  : M unit :=
  fun w => (send_command_reply n st payload, with_sent w (n, st, payload)).

(** *** Map rendering *)

Definition set_map_image_buffer (buf : list Byte.byte) : M unit :=
  fun w =>
    (Ok tt,
     {| self :=
          {| name := name (self w);
             nickname := nickname (self w);
             sub_type := sub_type (self w);
             robot_status := robot_status (self w);
             map := map (self w);
             map_image_buffer := Some buf;
             map_camera := map_camera (self w) |};
        sent := sent w;
        camera_updates := camera_updates w |}).

Definition register_map_camera (camera : nat) : M unit :=
  fun w =>
    (Ok tt,
     {| self :=
          {| name := name (self w);
             nickname := nickname (self w);
             sub_type := sub_type (self w);
             robot_status := robot_status (self w);
             map := map (self w);
             map_image_buffer := map_image_buffer (self w);
             map_camera := Some camera |};
        sent := sent w;
        camera_updates := camera_updates w |}).

(** [self.map_camera.schedule_update_ha_state(True)]. *)
Definition schedule_update_ha_state (camera : nat) : M unit :=
  fun w =>
    (Ok tt,
     {| self := self w;
        sent := sent w;
        camera_updates := camera_updates w ++ [camera] |}).

Definition trigger_map_camera_update : M unit :=
  run s <- get_self;
  match map_camera s with
  | Some camera => schedule_update_ha_state camera
  | None => m_ret tt
  end.

(** The bytes of the rendered map: the drawing stages in the order of
    [render_map], then the PNG encoding. *)
Definition render_image (m : VacMap) : list Byte.byte :=
  let vac_map_draw := VacMapDraw_init m in
  let vac_map_draw := draw_charger_point vac_map_draw in
  let vac_map_draw := draw_path vac_map_draw in
  let vac_map_draw := draw_robot_position vac_map_draw in
  let img := get_image vac_map_draw in
  png_encode img.

(** [render_map]; [not self.map] holds when no map is loaded (a [VacMap]
    object itself is true). *)
Definition render_map : M bool :=
  run s <- get_self;
  match map s with
  | None => m_ret false
  | Some m =>
      run _ <- set_map_image_buffer (render_image m);
      run s' <- get_self;
      run _ <- match map_camera s' with
               | Some _ => trigger_map_camera_update
               | None => m_ret tt
               end;
      m_ret true
  end.

(** *** Properties *)

Definition current_mode (s : VacDevice) : scalar :=
  match robot_status s !! "working_status" with
  | Some v => v
  | None => IDLE_MODE
  end.

Definition is_cleaning (s : VacDevice) : bool :=
  py_in (current_mode s) CLEANING_STATES.

(** [connected == "true" if connected is not None else False]; [get]
    returns [None] for an absent key. *)
Definition is_available (s : VacDevice) : bool :=
  let connected := default SNone (robot_status s !! "connected") in
  match connected with
  | SNone => false
  | _ => py_eq connected (SStr "true")
  end.

Definition is_charging (s : VacDevice) : bool :=
  py_in (current_mode s) CHARGING_STATES.

Definition error_info (s : VacDevice) : scalar :=
  match robot_status s !! "error_info" with
  | Some v => v
  | None => SNone
  end.

Definition battery_level (s : VacDevice) : result Z :=
  match robot_status s !! "battery_level" with
  | Some v => py_int v
  | None => Ok 0
  end.

Definition fan_status (s : VacDevice) : scalar :=
  match robot_status s !! "fan_status" with
  | Some v => v
  | None => SNone
  end.

Definition mop_status (s : VacDevice) : scalar :=
  match robot_status s !! "water_level" with
  | Some v => v
  | None => SNone
  end.

(** The truth value of a non-empty string literal. *)
Definition str_truthy (s : string) : bool :=
  match s with
  | EmptyString => false
  | String _ _ => true
  end.

(** The condition reads ["fan_status" and ("water_level" in robot_status)]:
    [and] yields its right operand when the left one, here a non-empty
    string, is true. *)
Definition vacuum_or_mop (s : VacDevice) : result Z :=
  if str_truthy "fan_status"
     && bool_decide (is_Some (robot_status s !! "water_level"))
  then
    do fan <- getitem (robot_status s) "fan_status";
    if py_eq fan FAN_DISABLED
    then
      do water <- getitem (robot_status s) "water_level";
      if negb (py_eq water MOP_DISABLED) then Ok MOP_ON else Ok VACUUM_ON
    else Ok VACUUM_ON
  else Ok NO_FAN_NO_MOP.

(** *** Methods *)

Definition set_fan_water_speed (speed : scalar) : M unit :=
  run s <- get_self;
  if negb (is_cleaning s) then m_ret tt
  else if negb (py_in speed FAN_SPEEDS) && negb (py_in speed MOP_SPEEDS)
  then m_ret tt
  else
    let working_payload := dict_display [(SET_FAN_SPEED, VScalar speed)] in
    send_command (name s) (sub_type s) working_payload.

Definition turn_on : M unit :=
  run s <- get_self;
  let working_payload := dict_display [(ASK_STATUS, VScalar CLEAN_MODE_AUTO)] in
  send_command (name s) (sub_type s) working_payload.

Definition turn_off : M unit :=
  run s <- get_self;
  let working_payload :=
    dict_display [(ASK_STATUS, VScalar CHARGE_MODE_RETURNING)] in
  send_command (name s) (sub_type s) working_payload.

Definition pause : M unit :=
  run s <- get_self;
  let working_payload := dict_display [(ASK_STATUS, VScalar CLEAN_MODE_STOP)] in
  send_command (name s) (sub_type s) working_payload.

Definition clean_spot : M unit :=
  run s <- get_self;
  let working_payload := dict_display [(ASK_STATUS, VScalar CLEAN_MODE_SPOT)] in
  send_command (name s) (sub_type s) working_payload.

Definition locate : M unit :=
  run s <- get_self;
  let working_payload :=
    dict_display [(ASK_STATUS, VScalar ROBOT_LOCATION_SOUND)] in
  send_command (name s) (sub_type s) working_payload.

Definition return_to_base : M unit :=
  run s <- get_self;
  let working_payload :=
    dict_display [(ASK_STATUS, VScalar CHARGE_MODE_RETURNING)] in
  send_command (name s) (sub_type s) working_payload.

Definition goto (point : string) : M unit :=
  run s <- get_self;
  let working_payload :=
    dict_display [(ASK_STATUS, VScalar ROBOT_PLANNING_LOCATION);
                  (GOTO_POINT, VStr point)] in
  send_command (name s) (sub_type s) working_payload.

Definition clean_rect (rectangle : string) : M unit :=
  run s <- get_self;
  let working_payload :=
    dict_display [(ASK_STATUS, VScalar ROBOT_PLANNING_RECT);
                  (RECTANGLE_INFO, VStr rectangle)] in
  send_command (name s) (sub_type s) working_payload.

Definition voice_mode (state : scalar) : M unit :=
  run s <- get_self;
  if py_in state SWITCH_VALUES
  then
    let working_payload := dict_display [(VOICE_SWITCH, VScalar state)] in
    send_command (name s) (sub_type s) working_payload
  else m_ret tt.

Definition undisturb_mode (state : scalar) : M unit :=
  run s <- get_self;
  if py_in state SWITCH_VALUES
  then
    let working_payload := dict_display [(UNDISTURB_MODE, VScalar state)] in
    send_command (name s) (sub_type s) working_payload
  else m_ret tt.

(** The loop of [clean_room]: one [dict(room_id=room_id)] appended per
    room id. *)
Definition room_loop (room_ids_list : list scalar) : list value :=
  foldl (fun room_data room_id =>
           room_data ++ [VDict (dict_display [("room_id", VScalar room_id)])])
        [] room_ids_list.

Definition clean_room (room_ids_list : list scalar) : M unit :=
  run s <- get_self;
  let room_data := room_loop room_ids_list in
  let working_payload :=
    dict_display [(ASK_STATUS, VScalar CLEAN_MODE_ROOMS);
                  (SELECTED_ZONE, VList room_data)] in
  send_command (name s) (sub_type s) working_payload.

(** [int(box[i] / 10)] for an integer coordinate. *)
Definition scaled_coord (box : list Z) (i : nat) : result Z :=
  do c <- list_getitem box i;
  do q <- py_truediv c 10;
  Ok (int_of_float q).

(** The loop of [clean_zone] over the boxes, with the two accumulators. *)
Fixpoint zone_loop (bounding : list (list Z)) (box_x box_y : list Z)
  : result (list Z * list Z) :=
  match bounding with
  | [] => Ok (box_x, box_y)
  | box :: rest =>
      do xa <- scaled_coord box 0;
      do xb <- scaled_coord box 0;
      do xc <- scaled_coord box 2;
      do xd <- scaled_coord box 2;
      do ya <- scaled_coord box 1;
      do yb <- scaled_coord box 3;
      do yc <- scaled_coord box 3;
      do yd <- scaled_coord box 1;
      zone_loop rest (box_x ++ [xa; xb; xc; xd]) (box_y ++ [ya; yb; yc; yd])
  end.

Definition clean_zone (bounding : list (list Z)) : M unit :=
  run s <- get_self;
  let num_boxes := Z.of_nat (length bounding) in
  run boxes <- lift (zone_loop bounding [] []);
  let working_payload :=
    dict_display [(ASK_STATUS, VScalar ROBOT_PLANNING_RECT);
                  (PLANNING_RECT_POINT_NUM, VInt (num_boxes * 4));
                  (PLANNING_RECT_X, VList (List.map VInt boxes.1));
                  (PLANNING_RECT_Y, VList (List.map VInt boxes.2))] in
  send_command (name s) (sub_type s) working_payload.

End VacDevice.

Arguments VacDevice {_}.
Arguments world {_}.

(** ** A sample configuration *)

(** Modelled from the spec: an instance of the constants of module
    [webackapi], which is not among the sources, under the names the spec
    gives the payload keys and status values; where the spec names no
    value (state sets, speeds, sentinels, the three mode codes) a sample
    stands in.  The transport accepts every command. *)
Definition sample_ctrl : WebackWssCtrl := {|
  IDLE_MODE := SStr "IDLE";
  CLEANING_STATES :=
    [SStr "AUTO_CLEAN"; SStr "SPOT_CLEAN"; SStr "CLEAN_ROOMS"; SStr "PLAN_RECT"];
  CHARGING_STATES := [SStr "CHARGING"; SStr "CHARGE_DONE"];
  FAN_DISABLED := SStr "None";
  MOP_DISABLED := SStr "None";
  FAN_SPEEDS := [SStr "Quiet"; SStr "Normal"; SStr "Strong"];
  MOP_SPEEDS := [SStr "Low"; SStr "Default"; SStr "High"];
  SWITCH_VALUES := [SStr "on"; SStr "off"];
  MOP_ON := 1;
  VACUUM_ON := 0;
  NO_FAN_NO_MOP := -1;
  ASK_STATUS := "status";
  SET_FAN_SPEED := "set_fan_speed";
  GOTO_POINT := "goto_point";
  RECTANGLE_INFO := "rectangle";
  VOICE_SWITCH := "voice_switch";
  UNDISTURB_MODE := "undisturb_mode";
  SELECTED_ZONE := "selected_zone";
  PLANNING_RECT_POINT_NUM := "point_num";
  PLANNING_RECT_X := "X";
  PLANNING_RECT_Y := "Y";
  CLEAN_MODE_AUTO := SStr "AUTO_CLEAN";
  CHARGE_MODE_RETURNING := SStr "RETURN_CHARGE";
  CLEAN_MODE_STOP := SStr "CLEAN_STOP";
  CLEAN_MODE_SPOT := SStr "SPOT_CLEAN";
  CLEAN_MODE_ROOMS := SStr "CLEAN_ROOMS";
  ROBOT_LOCATION_SOUND := SStr "LOCATION_SOUND";
  ROBOT_PLANNING_LOCATION := SStr "PLAN_LOCATION";
  ROBOT_PLANNING_RECT := SStr "PLAN_RECT";
  send_command_reply := fun _ _ _ => Ok tt;
|}.

(** Modelled from the spec: a drawing interface for the sample device;
    the grid is the base layer itself, a marker is one pixel, a segment is
    its two end points, and the encoder lists the painted pixels' colours
    as bytes. *)
Definition sample_drawing : MapDrawing := {|
  grid := image;
  base_layer := fun g => g;
  charger_marker := fun p => [(p, 2)];
  path_segment := fun a b => [(a, 1); (b, 1)];
  robot_marker := fun p => [(p, 3)];
  png_encode := fun img =>
    List.map (fun pc => default Byte.x00 (Byte.of_N (Z.to_N (pc.2 mod 256))))
             (map_to_list img);
|}.

Definition sample_device (status : gmap string scalar)
  : @VacDevice sample_drawing :=
  {| name := "robot-1";
     nickname := "Robot";
     sub_type := "vacuum";
     robot_status := status;
     map := None;
     map_image_buffer := None;
     map_camera := None |}.

Definition sample_world (status : gmap string scalar)
  : @world sample_drawing :=
  {| self := sample_device status; sent := []; camera_updates := [] |}.

(** Modelled from the spec: a sample map (a two-pixel grid, a path of
    three points) and a world in which it is loaded and camera 7 is
    registered. *)
Definition sample_grid : image := {[ (0, 0) := 0; (1, 0) := 0 ]}.

Definition sample_map : @VacMap sample_drawing :=
  @Build_VacMap sample_drawing sample_grid (0, 0) (4, 2)
    [(0, 0); (3, 0); (4, 2)].

Definition sample_world_with_map : @world sample_drawing :=
  {| self :=
       {| name := "robot-1";
          nickname := "Robot";
          sub_type := "vacuum";
          robot_status := ∅;
          map := Some sample_map;
          map_image_buffer := None;
          map_camera := Some 7%nat |};
     sent := [];
     camera_updates := [] |}.

(** ** The corner expansion as described

    The payload of [clean_zone] in the words of its description: per box
    the X values (x1, x1, x2, x2) and the Y values (y1, y2, y2, y1), each
    divided by 10 with the quotient truncated toward zero, in box order;
    the point count is four per box.  It is compared with what the method
    sends. *)

Definition box_coords (b : Z * Z * Z * Z) : list Z :=
  let '(x1, y1, x2, y2) := b in [x1; y1; x2; y2].

Definition corners_x (b : Z * Z * Z * Z) : list Z :=
  let '(x1, _, x2, _) := b in [x1 ÷ 10; x1 ÷ 10; x2 ÷ 10; x2 ÷ 10].

Definition corners_y (b : Z * Z * Z * Z) : list Z :=
  let '(_, y1, _, y2) := b in [y1 ÷ 10; y2 ÷ 10; y2 ÷ 10; y1 ÷ 10].

Definition expanded_zone_payload `{WebackWssCtrl} (boxes : list (Z * Z * Z * Z))
  : gmap string value :=
  dict_display
    [(ASK_STATUS, VScalar ROBOT_PLANNING_RECT);
     (PLANNING_RECT_POINT_NUM, VInt (4 * Z.of_nat (length boxes)));
     (PLANNING_RECT_X, VList (List.map VInt (flat_map corners_x boxes)));
     (PLANNING_RECT_Y, VList (List.map VInt (flat_map corners_y boxes)))].

(** Integers a binary64 number holds exactly. *)
Definition coordinate_in_range (x : Z) : Prop := - 2 ^ 53 < x < 2 ^ 53.

Definition box_in_range (b : Z * Z * Z * Z) : Prop :=
  let '(x1, y1, x2, y2) := b in
  coordinate_in_range x1 /\ coordinate_in_range y1
  /\ coordinate_in_range x2 /\ coordinate_in_range y2.

(** ** The rest of the device

    The constructor, the remaining properties, the map loader, and the
    vacuum-entity methods gathered as one family of requests. *)

(** What [load_maps] takes from elsewhere: the status key of the active
    map, the fetch of a stored map ([get_reuse_map_by_id], which returns,
    with [None] for a false value, or raises) and the constructor
    [VacMap(map_data)], which may raise on data it cannot decode. *)
Class MapLoading `{MapDrawing} : Type := {
  ACTIVE_MAP_ID_PROP : string;
  map_data : Type;
  get_reuse_map_by_id : scalar -> string -> string -> result (option map_data);
  VacMap_new : map_data -> result VacMap;
}.

Section VacDeviceRest.
Context `{WebackWssCtrl} `{MapLoading}.

Notation "'run' x <- e ; k" := (m_bind e (fun x => k))
  (at level 10, x name, e at level 100, k at level 200).

(** [__init__]: [inherited] is what the constructor of the base class left
    in [robot_status]; the status from the HTTP API is used when that is
    [None]. *)
Definition init (inherited : option (gmap string scalar))
    (thing_name thing_nickname thing_sub_type : string)
    (thing_status : gmap string scalar) : VacDevice :=
  {| name := thing_name;
     nickname := thing_nickname;
     sub_type := thing_sub_type;
     robot_status := default thing_status inherited;
     map := None;
     map_image_buffer := None;
     map_camera := None |}.

Definition init_world (s : VacDevice) : world :=
  {| self := s; sent := []; camera_updates := [] |}.

Definition raw_status (s : VacDevice) : gmap string scalar := robot_status s.

Definition clean_time (s : VacDevice) : scalar :=
  match robot_status s !! "clean_time" with
  | Some v => v
  | None => SInt 0
  end.

Definition clean_area (s : VacDevice) : scalar :=
  match robot_status s !! "clean_area" with
  | Some v => v
  | None => SInt 0
  end.

Definition set_map (m : VacMap) : M unit :=
  fun w =>
    (Ok tt,
     {| self :=
          {| name := name (self w);
             nickname := nickname (self w);
             sub_type := sub_type (self w);
             robot_status := robot_status (self w);
             map := Some m;
             map_image_buffer := map_image_buffer (self w);
             map_camera := map_camera (self w) |};
        sent := sent w;
        camera_updates := camera_updates w |}).

(** [load_maps]: [Some false] is [False], [None] is the [None] a method
    returns when it falls off its end. *)
Definition load_maps : M (option bool) :=
  run s <- get_self;
  if negb (bool_decide (is_Some (robot_status s !! ACTIVE_MAP_ID_PROP)))
  then m_ret (Some false)
  else
    run map_id <- lift (getitem (robot_status s) ACTIVE_MAP_ID_PROP);
    run fetched <- lift (get_reuse_map_by_id map_id (sub_type s) (name s));
    match fetched with
    | Some data =>
        run m <- lift (VacMap_new data);
        run _ <- set_map m;
        run _ <- render_map;
        m_ret None
    | None => m_ret None
    end.

(** The vacuum-entity methods, one constructor per method. *)
Inductive request : Type :=
  | SetFanWaterSpeed (speed : scalar)
  | TurnOn
  | TurnOff
  | Pause
  | CleanSpot
  | Locate
  | ReturnToBase
  | Goto (point : string)
  | CleanRect (rectangle : string)
  | VoiceMode (state : scalar)
  | UndisturbMode (state : scalar)
  | CleanRoom (room_ids_list : list scalar)
  | CleanZone (bounding : list (list Z)).

Definition perform (r : request) : M unit :=
  match r with
  | SetFanWaterSpeed speed => set_fan_water_speed speed
  | TurnOn => turn_on
  | TurnOff => turn_off
  | Pause => pause
  | CleanSpot => clean_spot
  | Locate => locate
  | ReturnToBase => return_to_base
  | Goto point => goto point
  | CleanRect rectangle => clean_rect rectangle
  | VoiceMode state => voice_mode state
  | UndisturbMode state => undisturb_mode state
  | CleanRoom room_ids_list => clean_room room_ids_list
  | CleanZone bounding => clean_zone bounding
  end.

(** One call on the device, as its users make them: a request, a map
    load, a render, the registration of a camera or its update. *)
Inductive call : Type :=
  | Request (r : request)
  | LoadMaps
  | RenderMap
  | RegisterMapCamera (camera : nat)
  | TriggerMapCameraUpdate.

Definition ignore {A} (m : M A) : M unit := run _ <- m; m_ret tt.

Definition make_call (c : call) : M unit :=
  match c with
  | Request r => perform r
  | LoadMaps => ignore load_maps
  | RenderMap => ignore render_map
  | RegisterMapCamera camera => register_map_camera camera
  | TriggerMapCameraUpdate => trigger_map_camera_update
  end.

(** A sequence of calls; a caller that catches the exception of one call
    goes on with the next, so each call starts from the world the previous
    one left. *)
Definition make_calls (cs : list call) (w : world) : world :=
  foldl (fun w c => (make_call c w).2) w cs.

End VacDeviceRest.

(** Modelled from the spec: a map source for the sample device; map 1 is
    stored, map 0 is not, any other id makes the fetch fail, and decoding
    puts the charger at the origin. *)
Definition sample_loading : @MapLoading sample_drawing := {|
  ACTIVE_MAP_ID_PROP := "active_map_id";
  map_data := image;
  get_reuse_map_by_id := fun map_id _ _ =>
    match map_id with
    | SInt 1 => Ok (Some sample_grid)
    | SInt 0 => Ok None
    | _ => Raise (TransportError 404)
    end;
  VacMap_new := fun g =>
    Ok (@Build_VacMap sample_drawing g (0, 0) (4, 2) [(0, 0); (3, 0); (4, 2)]);
|}.

(** The decimal writing of an integer, as [str] and JSON give it. *)
Definition decimal_string (z : Z) : string :=
  DecimalString.NilZero.string_of_int (Z.to_int z).

(** * Properties *)

(** ** Values *)

Lemma py_eq_str (a b : string) : py_eq (SStr a) (SStr b) = true <-> a = b.
Proof. simpl. apply String.eqb_eq. Qed.

Lemma py_eq_str_r (v : scalar) (b : string) :
  py_eq v (SStr b) = true <-> v = SStr b.
Proof.
  destruct v as [| x | z | a]; simpl; try (split; [discriminate | discriminate]).
  rewrite String.eqb_eq. split; [intros ->; reflexivity | intros [= ->]; reflexivity].
Qed.

Lemma py_in_exists (v : scalar) (c : list scalar) :
  py_in v c = true <-> exists x, x ∈ c /\ py_eq v x = true.
Proof.
  unfold py_in. rewrite existsb_exists. split.
  - intros (x & Hin & Heq). exists x. split; [by apply list_elem_of_In | done].
  - intros (x & Hin & Heq). exists x. split; [by apply list_elem_of_In | done].
Qed.

Lemma dict_display_one {V} (k : string) (v : V) :
  dict_display [(k, v)] = {[ k := v ]}.
Proof. unfold dict_display. simpl. apply insert_empty. Qed.

Lemma getitem_Some {V} (d : gmap string V) (k : string) (v : V) :
  d !! k = Some v -> getitem d k = Ok v.
Proof. unfold getitem. by intros ->. Qed.

Lemma getitem_None {V} (d : gmap string V) (k : string) :
  d !! k = None -> getitem d k = Raise (KeyError k).
Proof. unfold getitem. by intros ->. Qed.

(** ** The scanner of [int] against the grammar *)

Lemma code_inj (c : ascii) (n : N) :
  code c = Z.of_N n -> c = ascii_of_N n.
Proof.
  unfold code. intros Hc. apply N2Z.inj in Hc.
  rewrite <- Hc. symmetry. apply ascii_N_embedding.
Qed.

Lemma underscore_char (c : ascii) : is_underscore c = true -> c = "_"%char.
Proof.
  unfold is_underscore. intros Hc. apply Z.eqb_eq in Hc.
  apply (code_inj c 95). exact Hc.
Qed.

Lemma digit_val_digit (c : ascii) (d : Z) :
  digit_val c = Some d -> is_digit c = true.
Proof. unfold digit_val. by destruct (is_digit c). Qed.

Lemma digit_val_is_digit (c : ascii) :
  is_digit c = true -> digit_val c = Some (code c - 48).
Proof. unfold digit_val. by intros ->. Qed.

Lemma digit_not_space (c : ascii) : is_digit c = true -> is_space c = false.
Proof. unfold is_digit, is_space. lia. Qed.

Lemma digit_not_sign (c : ascii) :
  is_digit c = true -> (code c =? 43) = false /\ (code c =? 45) = false.
Proof. unfold is_digit. lia. Qed.

Lemma space_not_digit (c : ascii) : is_space c = true -> digit_val c = None.
Proof.
  unfold digit_val, is_digit, is_space. intros Hs.
  destruct ((48 <=? code c) && (code c <=? 57)) eqn:Hd; [lia | done].
Qed.

Lemma space_not_underscore (c : ascii) :
  is_space c = true -> is_underscore c = false.
Proof. unfold is_underscore, is_space. lia. Qed.

Lemma skip_spaces_split (s : string) :
  exists ws, s = String.append ws (skip_spaces s) /\ all_spaces ws = true.
Proof.
  induction s as [| c s IH]; simpl.
  - by exists EmptyString.
  - destruct (is_space c) eqn:Hc.
    + destruct IH as (ws & Hs & Hws). exists (String c ws). split.
      * change (String c s = String c (String.append ws (skip_spaces s))).
        by f_equal.
      * simpl. by rewrite Hc, Hws.
    + by exists EmptyString.
Qed.

Lemma skip_spaces_empty (s : string) :
  skip_spaces s = EmptyString -> all_spaces s = true.
Proof.
  induction s as [| c s IH]; simpl; [done |].
  destruct (is_space c); [by apply IH | discriminate].
Qed.

Lemma skip_all_spaces (ws s : string) :
  all_spaces ws = true -> skip_spaces (String.append ws s) = skip_spaces s.
Proof.
  induction ws as [| c ws IH]; simpl; [done |].
  intros Hws. apply andb_true_iff in Hws as [-> Hws]. by apply IH.
Qed.

Lemma split_sign_split (s : string) :
  exists sg, s = String.append sg (split_sign s).2 /\ sign_prefix sg.
Proof.
  unfold sign_prefix. destruct s as [| c s]; simpl.
  - exists EmptyString. eauto.
  - destruct (code c =? 43) eqn:Hp; [| destruct (code c =? 45) eqn:Hm].
    + apply Z.eqb_eq in Hp. apply (code_inj c 43) in Hp. subst c.
      exists "+". eauto.
    + apply Z.eqb_eq in Hm. apply (code_inj c 45) in Hm. subst c.
      exists "-". eauto.
    + exists EmptyString. eauto.
Qed.

Lemma scan_digits_sound (s : string) :
  forall acc prev n rest,
    scan_digits acc prev s = Some (n, rest) ->
    exists lit, s = String.append lit rest /\ groups_tail prev lit.
Proof.
  induction s as [| c s IH]; intros acc prev n rest; simpl.
  - destruct prev; [discriminate |]. intros [= <- <-].
    exists EmptyString. split; [done | constructor].
  - destruct (digit_val c) as [d |] eqn:Hd.
    + intros Hscan. apply IH in Hscan as (lit & -> & Htail).
      exists (String c lit). split; [done |].
      constructor; [by eapply digit_val_digit | done].
    + destruct (is_underscore c) eqn:Hu.
      * destruct prev; [discriminate |]. intros Hscan.
        apply IH in Hscan as (lit & -> & Htail).
        apply underscore_char in Hu. subst c.
        exists (String "_" lit). split; [done | by apply tail_us].
      * destruct prev; [discriminate |]. intros [= <- <-].
        exists EmptyString. split; [done | constructor].
Qed.

Lemma groups_tail_digit_groups (p : bool) (s : string) :
  groups_tail p s ->
  (p = false -> forall c, is_digit c = true -> digit_groups (String c s))
  /\ (p = true -> digit_groups s).
Proof.
  induction 1 as [| p c s Hc Htail [IHf _] | s Htail [_ IHt]].
  - split; [| discriminate]. intros _ c Hc. by constructor.
  - split.
    + intros _ c0 Hc0. apply groups_more; [done |]. by apply IHf.
    + intros _. by apply IHf.
  - split; [| discriminate]. intros _ c Hc. apply groups_sep; [done |].
    by apply IHt.
Qed.

Lemma digit_groups_tail (s : string) :
  digit_groups s ->
  exists c s', s = String c s' /\ is_digit c = true /\ groups_tail false s'.
Proof.
  induction 1 as [c Hc | c s Hc _ (c' & s' & -> & Hc' & Ht)
                 | c s Hc _ (c' & s' & -> & Hc' & Ht)].
  - exists c, EmptyString. repeat split; [done | constructor].
  - exists c, (String c' s'). repeat split; [done |]. by apply tail_digit.
  - exists c, (String "_" (String c' s')). repeat split; [done |].
    apply tail_us. by apply tail_digit.
Qed.

Lemma scan_digits_complete (p : bool) (lit : string) :
  groups_tail p lit ->
  forall ws acc, all_spaces ws = true ->
    exists n, scan_digits acc p (String.append lit ws) = Some (n, ws).
Proof.
  induction 1 as [| p c s Hc Htail IH | s Htail IH]; intros ws acc Hws; simpl.
  - destruct ws as [| c ws]; simpl; [by exists acc |].
    simpl in Hws. apply andb_true_iff in Hws as [Hc _].
    rewrite (space_not_digit c Hc), (space_not_underscore c Hc).
    by exists acc.
  - rewrite (digit_val_is_digit c Hc). by apply IH.
  - by apply IH.
Qed.

(** A string the scan converts is a written integer. *)
Lemma parse_int_sound (s : string) (n : Z) :
  parse_int s = Ok n -> written_integer s.
Proof.
  unfold parse_int. intros Hint.
  destruct (skip_spaces_split s) as (ws1 & Hs & Hws1).
  destruct (split_sign_split (skip_spaces s)) as (sg & Hsg & Hsign).
  destruct (split_sign (skip_spaces s)) as [sign body]. simpl in Hsg.
  unfold scan_number in Hint.
  destruct body as [| c body]; [discriminate |].
  destruct (digit_val c) as [d |] eqn:Hd; [| discriminate].
  destruct (scan_digits d false body) as [[m rest] |] eqn:Hscan; [| discriminate].
  destruct (skip_spaces rest) eqn:Hrest; [| discriminate].
  apply scan_digits_sound in Hscan as (lit & -> & Htail).
  exists ws1, sg, (String c lit), rest. repeat split.
  - rewrite Hs at 1. by rewrite Hsg.
  - done.
  - done.
  - apply (groups_tail_digit_groups false lit Htail); [done |].
    by eapply digit_val_digit.
  - by apply skip_spaces_empty.
Qed.

(** A written integer is converted by the scan, never rejected. *)
Lemma parse_int_complete (s : string) :
  written_integer s -> exists n, parse_int s = Ok n.
Proof.
  intros (ws1 & sg & body & ws2 & -> & Hws1 & Hsign & Hbody & Hws2).
  unfold parse_int. rewrite (skip_all_spaces _ _ Hws1).
  apply digit_groups_tail in Hbody as (c & lit & -> & Hc & Htail).
  destruct (scan_digits_complete false lit Htail ws2 (code c - 48) Hws2)
    as (n & Hscan).
  assert (Hskip : skip_spaces ws2 = EmptyString).
  { clear -Hws2. induction ws2 as [| a ws2 IH]; simpl; [done |].
    simpl in Hws2. apply andb_true_iff in Hws2 as [-> Hws2]. by apply IH. }
  destruct (digit_not_sign c Hc) as [Hplus Hminus].
  destruct Hsign as [-> | [-> | ->]]; simpl.
  - rewrite (digit_not_space c Hc). simpl. rewrite Hplus, Hminus. simpl.
    rewrite (digit_val_is_digit c Hc), Hscan, Hskip. eauto.
  - rewrite (digit_val_is_digit c Hc), Hscan, Hskip. eauto.
  - rewrite (digit_val_is_digit c Hc), Hscan, Hskip. eauto.
Qed.


(** [int] on a string succeeds exactly on the integer literals. *)
Lemma int_of_string_literal (s : string) :
  int_literal s <-> exists n, int_of_string s = Ok n.
Proof.
  unfold int_literal, int_of_string.
  destruct (N.ltb_spec max_str_digits (count_digits s)) as [Hmany | Hfew].
  - split; [intros [_ Hle]; lia | intros [n Hn]; discriminate].
  - split.
    + intros [Hw _]. by apply parse_int_complete.
    + intros [n Hn]. split; [by eapply parse_int_sound | done].
Qed.



Section Accessors.
Context `{WebackWssCtrl} `{MapDrawing}.

(** ** [vacuum_or_mop] *)

(** With both keys present the result is the documented one. *)
Lemma vacuum_or_mop_both (s : VacDevice) (fan water : scalar) :
  robot_status s !! "fan_status" = Some fan ->
  robot_status s !! "water_level" = Some water ->
  vacuum_or_mop s =
    Ok (if py_eq fan FAN_DISABLED && negb (py_eq water MOP_DISABLED)
        then MOP_ON else VACUUM_ON).
Proof.
  intros Hf Hw. unfold vacuum_or_mop.
  rewrite (getitem_Some _ _ _ Hf), (getitem_Some _ _ _ Hw).
  rewrite bool_decide_eq_true_2 by (rewrite Hw; eauto). simpl.
  by destruct (py_eq fan FAN_DISABLED), (py_eq water MOP_DISABLED).
Qed.

(** Without [water_level] the result is [NO_FAN_NO_MOP], whatever
    [fan_status] is. *)
Lemma vacuum_or_mop_no_water (s : VacDevice) :
  robot_status s !! "water_level" = None ->
  vacuum_or_mop s = Ok NO_FAN_NO_MOP.
Proof.
  intros Hw. unfold vacuum_or_mop.
  rewrite bool_decide_eq_false_2; [done |]. rewrite Hw. by intros [? ?].
Qed.

(** C1: the accessor is claimed never to raise and to return
    [NO_FAN_NO_MOP] when either key is absent.  On a status with
    [water_level] but without [fan_status] the guard passes (only
    [water_level] is tested) and the lookup of [fan_status] raises
    [KeyError]. *)
Theorem vacuum_or_mop_missing_fan_status (s : VacDevice) (water : scalar) :
  robot_status s !! "fan_status" = None ->
  robot_status s !! "water_level" = Some water ->
  vacuum_or_mop s = Raise (KeyError "fan_status").
Proof.
  intros Hf Hw. unfold vacuum_or_mop.
  rewrite (getitem_None _ _ Hf).
  by rewrite bool_decide_eq_true_2 by (rewrite Hw; eauto).
Qed.

(** ** [is_available] *)

(** C6: [is_available] is true iff [connected] is present with the
    literal string ["true"] as its value; an absent key, another string,
    a boolean or an integer give false. *)
Theorem is_available_iff (s : VacDevice) :
  (is_available s = true <-> robot_status s !! "connected" = Some (SStr "true"))
  /\ (robot_status s !! "connected" = None -> is_available s = false)
  /\ (forall b, robot_status s !! "connected" = Some (SBool b) ->
                is_available s = false)
  /\ (forall t, robot_status s !! "connected" = Some (SStr t) ->
                t <> "true" -> is_available s = false).
Proof.
  unfold is_available. repeat split.
  - destruct (robot_status s !! "connected") as [v |]; simpl; [| discriminate].
    destruct v as [| b | z | t]; simpl; try discriminate.
    intros Heq. apply String.eqb_eq in Heq. by subst.
  - intros ->. reflexivity.
  - intros ->. reflexivity.
  - intros b ->. reflexivity.
  - intros t -> Hne. simpl. by apply String.eqb_neq.
Qed.

(** ** [current_mode] and [is_charging] *)

(** C7: [current_mode] is the value of [working_status], or [IDLE_MODE]
    when the key is absent; [is_charging] is true iff that mode equals a
    member of [CHARGING_STATES], so a mode equal to none of them gives
    false; when the states are strings, as enumerated, this is plain
    membership of the mode in [CHARGING_STATES]. *)
Theorem current_mode_is_charging (s : VacDevice) :
  current_mode s = default IDLE_MODE (robot_status s !! "working_status")
  /\ (is_charging s = true <->
      exists c, c ∈ CHARGING_STATES /\ py_eq (current_mode s) c = true)
  /\ ((forall c, c ∈ CHARGING_STATES -> py_eq (current_mode s) c = false) ->
      is_charging s = false)
  /\ (forall names : list string, CHARGING_STATES = SStr <$> names ->
        (is_charging s = true <-> current_mode s ∈ CHARGING_STATES)).
Proof.
  split; [| split; [| split]].
  - unfold current_mode. by destruct (robot_status s !! "working_status").
  - unfold is_charging. apply py_in_exists.
  - intros Hnone. unfold is_charging.
    destruct (py_in (current_mode s) CHARGING_STATES) eqn:Hin; [| done].
    apply py_in_exists in Hin as (c & Hc & Heq).
    rewrite (Hnone c Hc) in Heq. discriminate.
  - intros names Hnames. unfold is_charging. rewrite py_in_exists, Hnames.
    split.
    + intros (c & Hc & Heq).
      apply list_elem_of_fmap in Hc as (n & -> & Hn).
      apply py_eq_str_r in Heq. rewrite Heq.
      apply list_elem_of_fmap. eauto.
    + intros Hin. exists (current_mode s). split; [done |].
      apply list_elem_of_fmap in Hin as (n & -> & Hn).
      by apply py_eq_str_r.
Qed.

End Accessors.

Section Battery.
Context `{WebackWssCtrl} `{MapDrawing}.

Lemma seven_a_not_literal : ~ int_literal "7a".
Proof.
  intros Hlit. apply int_of_string_literal in Hlit as [n Hn].
  vm_compute in Hn. discriminate.
Qed.


End Battery.

(** ** The accessors on sample status reports *)

Lemma vacuum_or_mop_missing_fan_status_witness :
  robot_status (sample_device {[ "water_level" := SStr "Low" ]})
    !! "fan_status" = None
  /\ robot_status (sample_device {[ "water_level" := SStr "Low" ]})
       !! "water_level" = Some (SStr "Low")
  /\ vacuum_or_mop (H := sample_ctrl)
       (sample_device {[ "water_level" := SStr "Low" ]})
     = Raise (KeyError "fan_status").
Proof.
  split; [reflexivity | split; [reflexivity |]].
  apply (vacuum_or_mop_missing_fan_status (H := sample_ctrl)
           (sample_device {[ "water_level" := SStr "Low" ]}) (SStr "Low"));
    reflexivity.
Defined.


Lemma is_available_iff_witness :
  is_available (sample_device {[ "connected" := SStr "true" ]}) = true
  /\ is_available (sample_device ∅) = false
  /\ is_available (sample_device {[ "connected" := SBool true ]}) = false
  /\ is_available (sample_device {[ "connected" := SStr "True" ]}) = false.
Proof.
  split; [| split; [| split]].
  - apply (proj1 (is_available_iff
                    (sample_device {[ "connected" := SStr "true" ]}))).
    reflexivity.
  - apply (proj1 (proj2 (is_available_iff (sample_device ∅)))).
    reflexivity.
  - apply (proj1 (proj2 (proj2
             (is_available_iff
                (sample_device {[ "connected" := SBool true ]})))) true).
    reflexivity.
  - apply (proj2 (proj2 (proj2
             (is_available_iff
                (sample_device {[ "connected" := SStr "True" ]})))) "True").
    + reflexivity.
    + discriminate.
Defined.

Lemma current_mode_is_charging_witness :
  is_charging (H := sample_ctrl)
    (sample_device {[ "working_status" := SStr "CHARGING" ]}) = true
  /\ is_charging (H := sample_ctrl)
       (sample_device {[ "working_status" := SStr "Moonwalk" ]}) = false.
Proof.
  split.
  - apply (proj1 (proj2 (current_mode_is_charging (H := sample_ctrl)
             (sample_device {[ "working_status" := SStr "CHARGING" ]})))).
    exists (SStr "CHARGING"). split; [| reflexivity].
    apply list_elem_of_here.
  - apply (proj1 (proj2 (proj2 (current_mode_is_charging (H := sample_ctrl)
             (sample_device {[ "working_status" := SStr "Moonwalk" ]}))))).
    intros c Hc. simpl in Hc.
    apply elem_of_cons in Hc as [-> | Hc]; [reflexivity |].
    apply elem_of_cons in Hc as [-> | Hc]; [reflexivity |].
    by apply elem_of_nil in Hc.
Defined.

(** ** Commands *)

Section Commands.
Context `{WebackWssCtrl} `{MapDrawing}.

Lemma with_sent_sent (w : world) cmd : sent (with_sent w cmd) = sent w ++ [cmd].
Proof. reflexivity. Qed.

Lemma sent_grows_ne (w : world) cmd : sent w ++ [cmd] <> sent w.
Proof.
  intros Heq. apply (f_equal length) in Heq.
  rewrite length_app in Heq. simpl in Heq. lia.
Qed.

(** C9: [turn_off] and [return_to_base] do the same thing: each sends the
    one-entry payload [{ASK_STATUS: CHARGE_MODE_RETURNING}] for this
    device, with no condition. *)
Theorem turn_off_return_to_base (w : world) :
  turn_off w = return_to_base w
  /\ turn_off w =
     (send_command_reply (name (self w)) (sub_type (self w))
        {[ ASK_STATUS := VScalar CHARGE_MODE_RETURNING ]},
      with_sent w (name (self w), sub_type (self w),
                   {[ ASK_STATUS := VScalar CHARGE_MODE_RETURNING ]})).
Proof.
  split; [reflexivity |].
  unfold turn_off, m_bind, get_self, send_command.
  by rewrite dict_display_one.
Qed.

Lemma set_fan_water_speed_accepted (w : world) (speed : scalar) :
  is_cleaning (self w) && (py_in speed FAN_SPEEDS || py_in speed MOP_SPEEDS)
    = true ->
  set_fan_water_speed speed w =
    (send_command_reply (name (self w)) (sub_type (self w))
       {[ SET_FAN_SPEED := VScalar speed ]},
     with_sent w (name (self w), sub_type (self w),
                  {[ SET_FAN_SPEED := VScalar speed ]})).
Proof.
  intros Hacc. apply andb_true_iff in Hacc as [Hclean Hspeed].
  unfold set_fan_water_speed, m_bind, get_self, send_command.
  rewrite Hclean. simpl.
  destruct (py_in speed FAN_SPEEDS), (py_in speed MOP_SPEEDS);
    simpl in *; try discriminate; by rewrite dict_display_one.
Qed.

Lemma set_fan_water_speed_rejected (w : world) (speed : scalar) :
  is_cleaning (self w) && (py_in speed FAN_SPEEDS || py_in speed MOP_SPEEDS)
    = false ->
  set_fan_water_speed speed w = (Ok tt, w).
Proof.
  intros Hacc. unfold set_fan_water_speed, m_bind, get_self, m_ret.
  destruct (is_cleaning (self w)); simpl in *; [| done].
  apply orb_false_iff in Hacc as [-> ->]. done.
Qed.

(** C5: [set_fan_water_speed v] sends [{SET_FAN_SPEED: v}] iff the device
    is cleaning and [v] is in [FAN_SPEEDS] or in [MOP_SPEEDS]; otherwise
    it returns without raising and leaves the world as it was. *)
Theorem set_fan_water_speed_sends_iff (w : world) (speed : scalar) :
  let accepted :=
    is_cleaning (self w) && (py_in speed FAN_SPEEDS || py_in speed MOP_SPEEDS) in
  let cmd :=
    (name (self w), sub_type (self w), {[ SET_FAN_SPEED := VScalar speed ]}) in
  (sent (set_fan_water_speed speed w).2 = sent w ++ [cmd] <-> accepted = true)
  /\ (accepted = true ->
      set_fan_water_speed speed w =
        (send_command_reply (name (self w)) (sub_type (self w))
           {[ SET_FAN_SPEED := VScalar speed ]},
         with_sent w cmd))
  /\ (accepted = false -> set_fan_water_speed speed w = (Ok tt, w)).
Proof.
  intros accepted cmd.
  split; [| split].
  - destruct accepted eqn:Hacc.
    + rewrite (set_fan_water_speed_accepted w speed Hacc). simpl. done.
    + rewrite (set_fan_water_speed_rejected w speed Hacc). simpl.
      split; [| discriminate].
      intros Heq. symmetry in Heq. by apply sent_grows_ne in Heq.
  - apply set_fan_water_speed_accepted.
  - apply set_fan_water_speed_rejected.
Qed.

Lemma room_loop_acc (ids : list scalar) (acc : list value) :
  foldl (fun room_data room_id =>
           room_data ++ [VDict (dict_display [("room_id", VScalar room_id)])])
        acc ids
  = acc ++ List.map (fun id => VDict {[ "room_id" := VScalar id ]}) ids.
Proof.
  revert acc. induction ids as [| id ids IH]; intros acc; simpl.
  - by rewrite app_nil_r.
  - rewrite IH, dict_display_one, <- app_assoc. reflexivity.
Qed.

Lemma room_loop_map (ids : list scalar) :
  room_loop ids = List.map (fun id => VDict {[ "room_id" := VScalar id ]}) ids.
Proof. unfold room_loop. by rewrite room_loop_acc. Qed.

(** C2, as the code has it: the three guarded operations
    ([set_fan_water_speed], [voice_mode], [undisturb_mode]) return without
    raising and leave the world unchanged, so nothing is sent, when their
    guard fails; [clean_room] has no guard and sends, for every list of
    room ids, the payload with one [{room_id: id}] per id, which for the
    empty list is an empty [SELECTED_ZONE]. *)
Theorem rejected_commands_send_nothing (w : world) :
  (forall speed,
     is_cleaning (self w) && (py_in speed FAN_SPEEDS || py_in speed MOP_SPEEDS)
       = false ->
     set_fan_water_speed speed w = (Ok tt, w))
  /\ (forall state, py_in state SWITCH_VALUES = false ->
                    voice_mode state w = (Ok tt, w))
  /\ (forall state, py_in state SWITCH_VALUES = false ->
                    undisturb_mode state w = (Ok tt, w))
  /\ (forall ids,
        (clean_room ids w).2 =
          with_sent w
            (name (self w), sub_type (self w),
             dict_display
               [(ASK_STATUS, VScalar CLEAN_MODE_ROOMS);
                (SELECTED_ZONE,
                 VList (List.map
                          (fun id => VDict {[ "room_id" := VScalar id ]}) ids))]))
  /\ sent (clean_room [] w).2 =
       sent w ++ [(name (self w), sub_type (self w),
                   dict_display [(ASK_STATUS, VScalar CLEAN_MODE_ROOMS);
                                 (SELECTED_ZONE, VList [])])].
Proof.
  split; [| split; [| split; [| split]]].
  - intros speed Hacc. by apply set_fan_water_speed_rejected.
  - intros state Hno. unfold voice_mode, m_bind, get_self, m_ret.
    by rewrite Hno.
  - intros state Hno. unfold undisturb_mode, m_bind, get_self, m_ret.
    by rewrite Hno.
  - intros ids. unfold clean_room, m_bind, get_self, send_command. simpl.
    by rewrite room_loop_map.
  - reflexivity.
Qed.

End Commands.

(** ** True division by ten *)

Lemma rne_div_bounds (n d : Z) :
  0 <= n -> 0 < d ->
  2 * n - d <= 2 * d * rne_div n d <= 2 * n + d.
Proof.
  intros Hn Hd. unfold rne_div.
  pose proof (Z.div_mod n d ltac:(lia)) as Hdiv.
  pose proof (Z.mod_pos_bound n d Hd) as Hmod.
  destruct (2 * (n mod d) <? d) eqn:Hlow; [nia |].
  destruct (d <? 2 * (n mod d)) eqn:Hhigh; [nia |].
  destruct (Z.even (n / d)); nia.
Qed.

(** Rounding the quotient scaled by at least 8 and dropping the scale
    again gives the floor of the quotient. *)
Lemma scaled_quotient_floor (a P : Z) :
  0 <= a -> 8 <= P -> rne_div (a * P) 10 / P = a / 10.
Proof.
  intros Ha HP.
  pose proof (rne_div_bounds (a * P) 10 ltac:(nia) ltac:(lia)) as Hm.
  pose proof (Z.div_mod a 10 ltac:(lia)) as Hdiv.
  pose proof (Z.mod_pos_bound a 10 ltac:(lia)) as Hmod.
  set (m := rne_div (a * P) 10) in *.
  set (q := a / 10) in *. set (r := a mod 10) in *.
  symmetry. apply (Z.div_unique m P q (m - P * q)); [| lia].
  left. nia.
Qed.

Lemma quotient_exponent_small (a : Z) :
  0 < a < 2 ^ 53 -> -56 <= quotient_exponent a 10 <= -3.
Proof.
  intros Ha. unfold quotient_exponent.
  assert (Hlog : 0 <= Z.log2 a < 53).
  { split; [apply Z.log2_nonneg |]. apply Z.log2_lt_pow2; lia. }
  change (Z.log2 10) with 3.
  destruct (scaled_le 10 (Z.log2 a - 3) a) eqn:Hle.
  - (* a >= 10 * 2^(log2 a - 3) forces the larger exponent *)
    lia.
  - lia.
Qed.

Lemma truediv_pos_small (a : Z) :
  0 < a < 2 ^ 53 ->
  exists f, truediv_pos a 10 = Ok f
            /\ exponent f < 0 /\ 0 <= significand f
            /\ significand f / 2 ^ (- exponent f) = a / 10.
Proof.
  intros Ha. pose proof (quotient_exponent_small a Ha) as He.
  unfold truediv_pos. set (e := quotient_exponent a 10) in *.
  assert (Hneg : (0 <=? e) = false) by lia. rewrite Hneg. simpl.
  eexists. split; [reflexivity |]. simpl.
  assert (Hp1 : pow2 e = 1).
  { unfold pow2. replace (Z.max 0 e) with 0 by lia. reflexivity. }
  assert (Hp2 : pow2 (- e) = 2 ^ (- e)).
  { unfold pow2. by replace (Z.max 0 (- e)) with (- e) by lia. }
  rewrite Hp1, Hp2, Z.mul_1_r.
  assert (HP : 8 <= 2 ^ (- e)).
  { change 8 with (2 ^ 3). apply Z.pow_le_mono_r; lia. }
  split; [lia | split].
  - pose proof (rne_div_bounds (a * 2 ^ (- e)) 10 ltac:(nia) ltac:(lia)). nia.
  - apply scaled_quotient_floor; lia.
Qed.

(** For an integer a binary64 number holds exactly, [int(x / 10)] is the
    quotient truncated toward zero. *)
Lemma int_truediv_ten (x : Z) :
  coordinate_in_range x ->
  (do q <- py_truediv x 10; Ok (int_of_float q)) = Ok (x ÷ 10).
Proof.
  unfold coordinate_in_range. intros Hx. unfold py_truediv.
  change (10 =? 0) with false. cbv iota.
  destruct (Z.eqb_spec x 0) as [-> | Hx0]; [reflexivity |].
  change (Z.abs 10) with 10. change (Z.sgn 10) with 1.
  destruct (truediv_pos_small (Z.abs x) ltac:(lia))
    as (f & Hf & Hexp & Hsig & Hquot).
  rewrite Hf. simpl. f_equal.
  assert (Hpow : 0 < 2 ^ (- exponent f)) by (apply Z.pow_pos_nonneg; lia).
  destruct (Z.ltb_spec (Z.sgn x * 1) 0) as [Hs | Hs].
  - assert (Hxneg : x < 0) by lia.
    unfold int_of_float, fneg. simpl.
    replace (0 <=? exponent f) with false by lia.
    rewrite Z.quot_opp_l by lia.
    rewrite Z.quot_div_nonneg by lia. rewrite Hquot.
    replace (Z.abs x) with (- x) by lia.
    rewrite <- Z.quot_div_nonneg by lia.
    rewrite Z.quot_opp_l by lia. lia.
  - assert (Hxpos : 0 < x) by lia.
    unfold int_of_float.
    replace (0 <=? exponent f) with false by lia.
    rewrite Z.quot_div_nonneg by lia. rewrite Hquot.
    replace (Z.abs x) with x by lia.
    by rewrite Z.quot_div_nonneg by lia.
Qed.

(** ** [clean_zone] *)

Section CleanZone.
Context `{WebackWssCtrl} `{MapDrawing}.

Lemma scaled_coord_in_range (box : list Z) (i : nat) (x : Z) :
  box !! i = Some x -> coordinate_in_range x ->
  scaled_coord box i = Ok (x ÷ 10).
Proof.
  intros Hbox Hx. unfold scaled_coord, list_getitem. rewrite Hbox. simpl.
  by apply int_truediv_ten.
Qed.

Lemma zone_loop_expansion (boxes : list (Z * Z * Z * Z)) :
  Forall box_in_range boxes ->
  forall box_x box_y,
    zone_loop (List.map box_coords boxes) box_x box_y =
      Ok (box_x ++ flat_map corners_x boxes, box_y ++ flat_map corners_y boxes).
Proof.
  induction 1 as [| b boxes Hb _ IH]; intros box_x box_y.
  - simpl. by rewrite !app_nil_r.
  - destruct b as [[[x1 y1] x2] y2]. destruct Hb as (Hx1 & Hy1 & Hx2 & Hy2).
    cbn [List.map box_coords zone_loop].
    rewrite (scaled_coord_in_range [x1; y1; x2; y2] 0 x1 eq_refl Hx1).
    rewrite (scaled_coord_in_range [x1; y1; x2; y2] 2 x2 eq_refl Hx2).
    rewrite (scaled_coord_in_range [x1; y1; x2; y2] 1 y1 eq_refl Hy1).
    rewrite (scaled_coord_in_range [x1; y1; x2; y2] 3 y2 eq_refl Hy2).
    cbn [rbind]. rewrite IH. cbn [flat_map corners_x corners_y].
    by rewrite <- !app_assoc.
Qed.

(** A display with pairwise distinct keys maps each key to its value. *)
Lemma dict_display_four {V} (k1 k2 k3 k4 : string) (v1 v2 v3 v4 : V) :
  NoDup [k1; k2; k3; k4] ->
  let d := dict_display [(k1, v1); (k2, v2); (k3, v3); (k4, v4)] in
  d !! k1 = Some v1 /\ d !! k2 = Some v2
  /\ d !! k3 = Some v3 /\ d !! k4 = Some v4.
Proof.
  intros Hnd. unfold dict_display. simpl.
  apply NoDup_cons in Hnd as [Hn1 Hnd].
  apply NoDup_cons in Hnd as [Hn2 Hnd].
  apply NoDup_cons in Hnd as [Hn3 _].
  apply not_elem_of_cons in Hn1 as [H12 Hn1].
  apply not_elem_of_cons in Hn1 as [H13 Hn1].
  apply not_elem_of_cons in Hn1 as [H14 _].
  apply not_elem_of_cons in Hn2 as [H23 Hn2].
  apply not_elem_of_cons in Hn2 as [H24 _].
  apply not_elem_of_cons in Hn3 as [H34 _].
  repeat split.
  - by rewrite !lookup_insert_ne, lookup_insert_eq by done.
  - by rewrite !lookup_insert_ne, lookup_insert_eq by done.
  - by rewrite lookup_insert_ne, lookup_insert_eq by done.
  - by rewrite lookup_insert_eq.
Qed.

(** C4, within the range of the float quotient: for boxes [x1,y1,x2,y2]
    whose coordinates are integers of magnitude below 2^53, [clean_zone]
    sends one payload, the described one: X is the concatenation in box
    order of (x1,x1,x2,x2) and Y that of (y1,y2,y2,y1), each divided by 10
    and truncated toward zero, the point count is 4 times the number of
    boxes and the status is [ROBOT_PLANNING_RECT]; with four distinct keys
    each of them is read back from the payload. *)
Theorem clean_zone_corner_expansion (w : world) (boxes : list (Z * Z * Z * Z)) :
  Forall box_in_range boxes ->
  clean_zone (List.map box_coords boxes) w =
    (send_command_reply (name (self w)) (sub_type (self w))
       (expanded_zone_payload boxes),
     with_sent w (name (self w), sub_type (self w),
                  expanded_zone_payload boxes))
  /\ (NoDup [ASK_STATUS; PLANNING_RECT_POINT_NUM;
             PLANNING_RECT_X; PLANNING_RECT_Y] ->
      expanded_zone_payload boxes !! ASK_STATUS
        = Some (VScalar ROBOT_PLANNING_RECT)
      /\ expanded_zone_payload boxes !! PLANNING_RECT_POINT_NUM
         = Some (VInt (4 * Z.of_nat (length boxes)))
      /\ expanded_zone_payload boxes !! PLANNING_RECT_X
         = Some (VList (List.map VInt (flat_map corners_x boxes)))
      /\ expanded_zone_payload boxes !! PLANNING_RECT_Y
         = Some (VList (List.map VInt (flat_map corners_y boxes)))).
Proof.
  intros Hrange. split.
  - unfold clean_zone, m_bind, get_self, lift, send_command.
    rewrite (zone_loop_expansion boxes Hrange [] []). simpl.
    rewrite length_map. unfold expanded_zone_payload.
    by replace (Z.of_nat (length boxes) * 4) with (4 * Z.of_nat (length boxes))
      by lia.
  - intros Hnd. by apply dict_display_four.
Qed.

End CleanZone.

(** ** Map rendering *)

Section Rendering.
Context `{WebackWssCtrl} `{MapDrawing}.

Lemma render_map_none (w : world) :
  map (self w) = None -> render_map w = (Ok false, w).
Proof.
  intros Hmap. unfold render_map, m_bind, get_self, m_ret. by rewrite Hmap.
Qed.

(** C10: with no map loaded [render_map] returns [False] and the world is
    as before: the image buffer keeps its value and no camera is asked to
    refresh. *)
Theorem render_map_without_map (w : world) :
  map (self w) = None ->
  render_map w = (Ok false, w)
  /\ map_image_buffer (self (render_map w).2) = map_image_buffer (self w)
  /\ camera_updates (render_map w).2 = camera_updates w.
Proof.
  intros Hmap. by rewrite (render_map_none w Hmap).
Qed.

End Rendering.

(** ** The commands on the sample device *)

Lemma set_fan_water_speed_sends_iff_witness :
  sent (set_fan_water_speed (H := sample_ctrl) (SStr "Quiet")
          (sample_world {[ "working_status" := SStr "AUTO_CLEAN" ]})).2
    = [("robot-1", "vacuum", {[ "set_fan_speed" := VStr "Quiet" ]})]
  /\ set_fan_water_speed (H := sample_ctrl) (SStr "Quiet") (sample_world ∅)
     = (Ok tt, sample_world ∅)
  /\ set_fan_water_speed (H := sample_ctrl) (SStr "Turbo")
       (sample_world {[ "working_status" := SStr "AUTO_CLEAN" ]})
     = (Ok tt, sample_world {[ "working_status" := SStr "AUTO_CLEAN" ]}).
Proof.
  split; [| split].
  - apply (proj1 (set_fan_water_speed_sends_iff (H := sample_ctrl)
             (sample_world {[ "working_status" := SStr "AUTO_CLEAN" ]})
             (SStr "Quiet"))).
    reflexivity.
  - apply (proj2 (proj2 (set_fan_water_speed_sends_iff (H := sample_ctrl)
             (sample_world ∅) (SStr "Quiet")))).
    reflexivity.
  - apply (proj2 (proj2 (set_fan_water_speed_sends_iff (H := sample_ctrl)
             (sample_world {[ "working_status" := SStr "AUTO_CLEAN" ]})
             (SStr "Turbo")))).
    reflexivity.
Defined.

(** C2 as stated fails: [clean_room] with the empty list of room ids does
    send a payload. *)
Lemma clean_room_empty_list_sends :
  sent (clean_room (H := sample_ctrl) [] (sample_world ∅)).2
  <> sent (sample_world ∅).
Proof. simpl. discriminate. Qed.

Lemma rejected_commands_send_nothing_witness :
  set_fan_water_speed (H := sample_ctrl) (SStr "Quiet") (sample_world ∅)
    = (Ok tt, sample_world ∅)
  /\ voice_mode (H := sample_ctrl) (SStr "loud") (sample_world ∅)
     = (Ok tt, sample_world ∅)
  /\ undisturb_mode (H := sample_ctrl) (SStr "maybe") (sample_world ∅)
     = (Ok tt, sample_world ∅)
  /\ sent (clean_room (H := sample_ctrl) [SInt 3; SInt 5] (sample_world ∅)).2
     = [("robot-1", "vacuum",
         dict_display
           [("status", VStr "CLEAN_ROOMS");
            ("selected_zone",
             VList [VDict {[ "room_id" := VInt 3 ]};
                    VDict {[ "room_id" := VInt 5 ]}])])].
Proof.
  pose proof (rejected_commands_send_nothing (H := sample_ctrl) (sample_world ∅))
    as (Hfan & Hvoice & Hund & Hroom & _).
  split; [| split; [| split]].
  - apply Hfan. reflexivity.
  - apply Hvoice. reflexivity.
  - apply Hund. reflexivity.
  - rewrite Hroom. reflexivity.
Defined.

(** C4 as stated fails on a coordinate too large for the float quotient:
    [int(90071992547409930 / 10)] is 9007199254740992, one less than the
    integer quotient, so the payload sent is not the described one. *)
Lemma clean_zone_large_coordinate :
  (clean_zone (H := sample_ctrl) [[0; 0; 90071992547409930; 0]]
     (sample_world ∅)).2
  <> with_sent (sample_world ∅)
       ("robot-1", "vacuum",
        expanded_zone_payload (H := sample_ctrl) [(0, 0, 90071992547409930, 0)]).
Proof.
  intros Heq.
  apply (f_equal (fun w => (fun c => c.2 !! "X") <$> sent w)) in Heq.
  vm_compute in Heq. discriminate.
Qed.

Lemma clean_zone_corner_expansion_witness :
  Forall box_in_range [(0, 0, 20, 30)]
  /\ clean_zone (H := sample_ctrl) [[0; 0; 20; 30]] (sample_world ∅)
     = (Ok tt,
        with_sent (sample_world ∅)
          ("robot-1", "vacuum",
           expanded_zone_payload (H := sample_ctrl) [(0, 0, 20, 30)]))
  /\ expanded_zone_payload (H := sample_ctrl) [(0, 0, 20, 30)] !! "status"
     = Some (VStr "PLAN_RECT")
  /\ expanded_zone_payload (H := sample_ctrl) [(0, 0, 20, 30)] !! "point_num"
     = Some (VInt 4)
  /\ expanded_zone_payload (H := sample_ctrl) [(0, 0, 20, 30)] !! "X"
     = Some (VList [VInt 0; VInt 0; VInt 2; VInt 2])
  /\ expanded_zone_payload (H := sample_ctrl) [(0, 0, 20, 30)] !! "Y"
     = Some (VList [VInt 0; VInt 3; VInt 3; VInt 0]).
Proof.
  assert (Hrange : Forall box_in_range [(0, 0, 20, 30)]).
  { repeat constructor. }
  assert (Hkeys : NoDup ["status"; "point_num"; "X"; "Y"]).
  { apply (bool_decide_unpack _). vm_compute. exact I. }
  destruct (clean_zone_corner_expansion (H := sample_ctrl) (sample_world ∅)
              [(0, 0, 20, 30)] Hrange) as [Hrun Hread].
  split; [exact Hrange | split; [exact Hrun |]].
  exact (Hread Hkeys).
Defined.

Lemma render_map_without_map_witness :
  map (self (sample_world ∅)) = None
  /\ render_map (sample_world ∅) = (Ok false, sample_world ∅).
Proof.
  split; [reflexivity |].
  apply (proj1 (render_map_without_map (sample_world ∅) eq_refl)).
Defined.


(** * Further properties of the device *)

(** ** Accessors *)

Section MoreAccessors.
Context `{WebackWssCtrl} `{MapDrawing}.

(** X1: [vacuum_or_mop] raises in exactly one situation, a status with
    [water_level] but without [fan_status], and then it is
    [KeyError "fan_status"]; in every other status it returns one of its
    three codes. *)
Theorem vacuum_or_mop_raises_iff (s : VacDevice) :
  (forall e, vacuum_or_mop s = Raise e <->
             e = KeyError "fan_status"
             /\ is_Some (robot_status s !! "water_level")
             /\ robot_status s !! "fan_status" = None)
  /\ (forall z, vacuum_or_mop s = Ok z ->
                z = MOP_ON \/ z = VACUUM_ON \/ z = NO_FAN_NO_MOP).
Proof.
  destruct (robot_status s !! "water_level") as [water |] eqn:Hw.
  - destruct (robot_status s !! "fan_status") as [fan |] eqn:Hf.
    + rewrite (vacuum_or_mop_both s fan water Hf Hw). split.
      * intros e. split; [discriminate | by intros (_ & _ & ?)].
      * intros z [= <-].
        destruct (py_eq fan FAN_DISABLED && negb (py_eq water MOP_DISABLED));
          auto.
    + assert (Hraise : vacuum_or_mop s = Raise (KeyError "fan_status")).
      { unfold vacuum_or_mop. rewrite (getitem_None _ _ Hf).
        by rewrite bool_decide_eq_true_2 by (rewrite Hw; eauto). }
      rewrite Hraise. split; [| discriminate].
      intros e. split; [intros [= <-]; eauto | by intros (-> & _ & _)].
  - rewrite (vacuum_or_mop_no_water s Hw). split; [| intros z [= <-]; auto].
    intros e. split; [discriminate | intros (_ & [? ?] & _); discriminate].
Qed.

(** X2: when the three codes are pairwise distinct the result can be read
    backwards: [MOP_ON] is returned iff both keys are present, the
    [fan_status] property equals [FAN_DISABLED] and the [mop_status]
    property differs from [MOP_DISABLED]; [NO_FAN_NO_MOP] is returned iff
    [water_level] is absent. *)
Theorem vacuum_or_mop_read_back (s : VacDevice) :
  MOP_ON <> VACUUM_ON -> MOP_ON <> NO_FAN_NO_MOP ->
  VACUUM_ON <> NO_FAN_NO_MOP ->
  (vacuum_or_mop s = Ok MOP_ON <->
     is_Some (robot_status s !! "fan_status")
     /\ is_Some (robot_status s !! "water_level")
     /\ py_eq (fan_status s) FAN_DISABLED = true
     /\ py_eq (mop_status s) MOP_DISABLED = false)
  /\ (vacuum_or_mop s = Ok NO_FAN_NO_MOP <->
      robot_status s !! "water_level" = None).
Proof.
  intros Hmv Hmn Hvn. unfold fan_status, mop_status.
  destruct (robot_status s !! "water_level") as [water |] eqn:Hw.
  - destruct (robot_status s !! "fan_status") as [fan |] eqn:Hf.
    + rewrite (vacuum_or_mop_both s fan water Hf Hw).
      destruct (py_eq fan FAN_DISABLED), (py_eq water MOP_DISABLED); simpl;
        split; split;
        try (intros [= ?]; congruence);
        try (intros (_ & _ & ? & ?); congruence);
        try discriminate;
        intros _; eauto.
    + assert (Hraise : vacuum_or_mop s = Raise (KeyError "fan_status")).
      { unfold vacuum_or_mop. rewrite (getitem_None _ _ Hf).
        by rewrite bool_decide_eq_true_2 by (rewrite Hw; eauto). }
      rewrite Hraise. split; split; try discriminate.
      intros ([? ?] & _); discriminate.
  - rewrite (vacuum_or_mop_no_water s Hw). split; split; try done.
    + intros [= ?]. congruence.
    + intros (_ & [? ?] & _). discriminate.
Qed.

(** X3: on a status that lacks every key the properties read, each of
    them gives its default and none raises. *)
Theorem properties_on_sparse_status (s : VacDevice) :
  (forall k, k ∈ ["working_status"; "connected"; "error_info";
                  "battery_level"; "fan_status"; "water_level";
                  "clean_time"; "clean_area"] ->
             robot_status s !! k = None) ->
  current_mode s = IDLE_MODE
  /\ is_available s = false
  /\ error_info s = SNone
  /\ battery_level s = Ok 0
  /\ fan_status s = SNone
  /\ mop_status s = SNone
  /\ clean_time s = SInt 0
  /\ clean_area s = SInt 0
  /\ vacuum_or_mop s = Ok NO_FAN_NO_MOP
  /\ is_cleaning s = py_in IDLE_MODE CLEANING_STATES
  /\ is_charging s = py_in IDLE_MODE CHARGING_STATES.
Proof.
  intros Hnone.
  assert (Hmode : current_mode s = IDLE_MODE).
  { unfold current_mode. rewrite Hnone; [done |]. set_solver. }
  unfold is_cleaning, is_charging. rewrite Hmode.
  unfold is_available, error_info, battery_level, fan_status, mop_status,
    clean_time, clean_area.
  rewrite (vacuum_or_mop_no_water s) by (apply Hnone; set_solver).
  rewrite !Hnone by set_solver. done.
Qed.

End MoreAccessors.

(** ** Requests *)

Section Requests.
Context `{WebackWssCtrl} `{MapLoading}.

Lemma py_truediv_ten_error (c : Z) (e : exn) :
  py_truediv c 10 = Raise e -> e = OverflowError.
Proof.
  unfold py_truediv. change (10 =? 0) with false. cbv iota.
  destruct (c =? 0); [discriminate |].
  unfold truediv_pos.
  destruct ((0 <=? quotient_exponent (Z.abs c) (Z.abs 10)) && _); simpl;
    [by intros [= <-] | discriminate].
Qed.

Lemma scaled_coord_error (box : list Z) (i : nat) (e : exn) :
  scaled_coord box i = Raise e -> e = IndexError \/ e = OverflowError.
Proof.
  unfold scaled_coord, list_getitem.
  destruct (box !! i) as [c |]; simpl; [| intros [= <-]; auto].
  destruct (py_truediv c 10) as [q |] eqn:Hq; simpl; [discriminate |].
  intros [= <-]. right. by eapply py_truediv_ten_error.
Qed.

Ltac step_coord :=
  match goal with
  | |- context [scaled_coord ?b ?i] =>
      let Hc := fresh "Hc" in
      destruct (scaled_coord b i) eqn:Hc; cbn [rbind];
      [| try (intros [= <-]; by eapply scaled_coord_error)]
  end.

Lemma zone_loop_error (bounding : list (list Z)) :
  forall box_x box_y e,
    zone_loop bounding box_x box_y = Raise e ->
    e = IndexError \/ e = OverflowError.
Proof.
  induction bounding as [| box rest IH]; intros box_x box_y e;
    cbn [zone_loop]; [discriminate |].
  repeat step_coord. apply IH.
Qed.

Lemma zone_loop_length (bounding : list (list Z)) :
  forall box_x box_y xs ys,
    zone_loop bounding box_x box_y = Ok (xs, ys) ->
    (length xs = length box_x + 4 * length bounding
     /\ length ys = length box_y + 4 * length bounding)%nat.
Proof.
  induction bounding as [| box rest IH]; intros box_x box_y xs ys;
    cbn [zone_loop].
  - intros [= <- <-]. simpl. lia.
  - repeat step_coord; try discriminate.
    intros Hloop. apply IH in Hloop. rewrite !length_app in Hloop.
    simpl in *. lia.
Qed.

(** X4: [clean_zone] is all or nothing.  Either a coordinate is missing
    or too large for a float, and then it raises [IndexError] or
    [OverflowError] with the world untouched; or it sends one payload, in
    which X and Y each hold exactly four values per box, the number that
    the point count announces. *)
Theorem clean_zone_all_or_nothing (bounding : list (list Z)) (w : world) :
  (exists e, clean_zone bounding w = (Raise e, w)
             /\ (e = IndexError \/ e = OverflowError))
  \/ (exists xs ys,
        (length xs = 4 * length bounding)%nat
        /\ (length ys = 4 * length bounding)%nat
        /\ clean_zone bounding w =
             let payload :=
               dict_display
                 [(ASK_STATUS, VScalar ROBOT_PLANNING_RECT);
                  (PLANNING_RECT_POINT_NUM,
                   VInt (Z.of_nat (length bounding) * 4));
                  (PLANNING_RECT_X, VList (List.map VInt xs));
                  (PLANNING_RECT_Y, VList (List.map VInt ys))] in
             (send_command_reply (name (self w)) (sub_type (self w)) payload,
              with_sent w (name (self w), sub_type (self w), payload))).
Proof.
  unfold clean_zone, m_bind, get_self, lift.
  destruct (zone_loop bounding [] []) as [[xs ys] | e] eqn:Hloop.
  - right. exists xs, ys.
    destruct (zone_loop_length _ _ _ _ _ Hloop) as [Hx Hy].
    simpl in Hx, Hy. repeat split; [lia | lia].
  - left. exists e. split; [done |]. by eapply zone_loop_error.
Qed.

Lemma perform_sends_or_not (r : request) (w : world) :
  ((perform r w).2 = w
   /\ ((perform r w).1 = Ok tt
       \/ (exists bounding, r = CleanZone bounding)
          /\ ((perform r w).1 = Raise IndexError
              \/ (perform r w).1 = Raise OverflowError)))
  \/ (exists payload,
        payload <> ∅
        /\ perform r w =
             (send_command_reply (name (self w)) (sub_type (self w)) payload,
              with_sent w (name (self w), sub_type (self w), payload))).
Proof.
  assert (Hsend : forall kvs k v,
            exists payload : gmap string value,
              payload <> ∅
              /\ send_command (name (self w)) (sub_type (self w))
                   (dict_display (kvs ++ [(k, v)])) w =
                 (send_command_reply (name (self w)) (sub_type (self w)) payload,
                  with_sent w (name (self w), sub_type (self w), payload))).
  { intros kvs k v. eexists. split; [| reflexivity].
    unfold dict_display. rewrite foldl_app. simpl. apply insert_non_empty. }
  destruct r; cbn [perform].
  - unfold set_fan_water_speed, m_bind, get_self, m_ret. simpl.
    destruct (is_cleaning (self w)); simpl; [| by left; eauto].
    destruct (negb (py_in speed FAN_SPEEDS) && negb (py_in speed MOP_SPEEDS));
      [by left; eauto |].
    right. apply (Hsend []).
  - right. apply (Hsend []).
  - right. apply (Hsend []).
  - right. apply (Hsend []).
  - right. apply (Hsend []).
  - right. apply (Hsend []).
  - right. apply (Hsend []).
  - right. apply (Hsend [_]).
  - right. apply (Hsend [_]).
  - unfold voice_mode, m_bind, get_self, m_ret. simpl.
    destruct (py_in state SWITCH_VALUES); [| by left; eauto].
    right. apply (Hsend []).
  - unfold undisturb_mode, m_bind, get_self, m_ret. simpl.
    destruct (py_in state SWITCH_VALUES); [| by left; eauto].
    right. apply (Hsend []).
  - right. apply (Hsend [_]).
  - unfold clean_zone, m_bind, get_self, lift.
    destruct (zone_loop bounding [] []) as [[xs ys] | e] eqn:Hloop.
    + right. apply (Hsend [_; _; _]).
    + left. split; [done |]. right. split; [eauto |]. simpl.
      by destruct (zone_loop_error _ _ _ _ Hloop) as [-> | ->]; auto.
Qed.

(** X5: no request touches the device or the cameras, and each sends at
    most one command: either the world is left as it was (the request was
    refused, or [clean_zone] raised on its input), or one non-empty
    payload addressed to this device's name and sub type is handed to the
    transport, whose outcome is the result. *)
Theorem perform_frame (r : request) (w : world) :
  self (perform r w).2 = self w
  /\ camera_updates (perform r w).2 = camera_updates w
  /\ (((perform r w).2 = w
       /\ ((perform r w).1 = Ok tt
           \/ (exists bounding, r = CleanZone bounding)
              /\ ((perform r w).1 = Raise IndexError
                  \/ (perform r w).1 = Raise OverflowError)))
      \/ (exists payload,
            payload <> ∅
            /\ perform r w =
                 (send_command_reply (name (self w)) (sub_type (self w))
                    payload,
                  with_sent w (name (self w), sub_type (self w), payload)))).
Proof.
  pose proof (perform_sends_or_not r w) as Hcases.
  split; [| split; [| exact Hcases]].
  - destruct Hcases as [[-> _] | (p & _ & ->)]; reflexivity.
  - destruct Hcases as [[-> _] | (p & _ & ->)]; reflexivity.
Qed.

End Requests.

(** ** Payloads *)

Section Payloads.
Context `{WebackWssCtrl} `{MapDrawing}.

Lemma sent_snoc_inj (w : world) (c1 c2 : string * string * gmap string value) :
  sent w ++ [c1] = sent w ++ [c2] -> c1 = c2.
Proof. intros Heq. apply app_inv_head in Heq. by injection Heq. Qed.

Lemma dict_display_two_last {V} (k1 k2 : string) (v1 v2 : V) :
  dict_display [(k1, v1); (k2, v2)] !! k2 = Some v2.
Proof. unfold dict_display. simpl. apply lookup_insert_eq. Qed.

Lemma dict_display_two_first {V} (k1 k2 : string) (v1 v2 : V) :
  k1 <> k2 -> dict_display [(k1, v1); (k2, v2)] !! k1 = Some v1.
Proof.
  intros Hne. unfold dict_display. simpl.
  by rewrite lookup_insert_ne, lookup_insert_eq.
Qed.

(** X6: [voice_mode] and [undisturb_mode] accept the same states: each
    sends its one-entry payload, [{VOICE_SWITCH: state}] or
    [{UNDISTURB_MODE: state}], iff the state is in [SWITCH_VALUES], and
    so one of them sends iff the other does. *)
Theorem switch_modes_send_iff (w : world) (state : scalar) :
  (sent (voice_mode state w).2 =
     sent w ++ [(name (self w), sub_type (self w),
                 {[ VOICE_SWITCH := VScalar state ]})]
   <-> py_in state SWITCH_VALUES = true)
  /\ (sent (undisturb_mode state w).2 =
        sent w ++ [(name (self w), sub_type (self w),
                    {[ UNDISTURB_MODE := VScalar state ]})]
      <-> py_in state SWITCH_VALUES = true)
  /\ (sent (voice_mode state w).2 = sent w
      <-> sent (undisturb_mode state w).2 = sent w).
Proof.
  unfold voice_mode, undisturb_mode, m_bind, get_self, m_ret, send_command.
  rewrite !dict_display_one. simpl.
  destruct (py_in state SWITCH_VALUES); simpl.
  - repeat split; try done.
    + intros Heq. by apply sent_grows_ne in Heq.
    + intros Heq. by apply sent_grows_ne in Heq.
  - repeat split; try done.
    + intros Heq. symmetry in Heq. by apply sent_grows_ne in Heq.
    + intros Heq. symmetry in Heq. by apply sent_grows_ne in Heq.
Qed.

(** X7: [goto] and [clean_rect] pass their argument through unchanged and
    unchecked: the string is read back from the payload under
    [GOTO_POINT] (or [RECTANGLE_INFO]), two calls send the same command
    iff they were given the same string, and the status entry is there
    whenever the two keys differ. *)
Theorem goto_clean_rect_round_trip (w : world) (a b : string) :
  (exists payload,
     sent (goto a w).2 =
       sent w ++ [(name (self w), sub_type (self w), payload)]
     /\ payload !! GOTO_POINT = Some (VStr a)
     /\ (ASK_STATUS <> GOTO_POINT ->
         payload !! ASK_STATUS = Some (VScalar ROBOT_PLANNING_LOCATION)))
  /\ (exists payload,
        sent (clean_rect a w).2 =
          sent w ++ [(name (self w), sub_type (self w), payload)]
        /\ payload !! RECTANGLE_INFO = Some (VStr a)
        /\ (ASK_STATUS <> RECTANGLE_INFO ->
            payload !! ASK_STATUS = Some (VScalar ROBOT_PLANNING_RECT)))
  /\ (sent (goto a w).2 = sent (goto b w).2 <-> a = b)
  /\ (sent (clean_rect a w).2 = sent (clean_rect b w).2 <-> a = b).
Proof.
  split; [| split; [| split]].
  - eexists. split; [reflexivity |]. split.
    + apply dict_display_two_last.
    + apply dict_display_two_first.
  - eexists. split; [reflexivity |]. split.
    + apply dict_display_two_last.
    + apply dict_display_two_first.
  - split; [| by intros ->].
    unfold goto, m_bind, get_self, send_command. simpl. intros Heq.
    apply sent_snoc_inj in Heq.
    apply (f_equal (fun c => c.2 !! GOTO_POINT)) in Heq. cbn [snd] in Heq.
    rewrite !dict_display_two_last in Heq. by injection Heq.
  - split; [| by intros ->].
    unfold clean_rect, m_bind, get_self, send_command. simpl. intros Heq.
    apply sent_snoc_inj in Heq.
    apply (f_equal (fun c => c.2 !! RECTANGLE_INFO)) in Heq. cbn [snd] in Heq.
    rewrite !dict_display_two_last in Heq. by injection Heq.
Qed.

Lemma room_entries_inj (ids1 ids2 : list scalar) :
  List.map (fun id => VDict {[ "room_id" := VScalar id ]}) ids1
  = List.map (fun id => VDict {[ "room_id" := VScalar id ]}) ids2 ->
  ids1 = ids2.
Proof.
  revert ids2. induction ids1 as [| a ids1 IH]; intros [| b ids2]; simpl;
    try done.
  intros Heq.
  pose proof (f_equal (fun l => match l with
                                | VDict d :: _ => d !! "room_id"
                                | _ => None
                                end) Heq) as Hhd.
  pose proof (f_equal tail Heq) as Htl.
  cbn beta iota in Hhd. cbn [tail] in Htl.
  rewrite !lookup_singleton_eq in Hhd.
  f_equal; [congruence | by apply IH].
Qed.

(** X8: the room list survives [clean_room]: the payload holds under
    [SELECTED_ZONE] one [{room_id: id}] per room id, in the order given
    and with repetitions kept, and two calls send the same command iff
    they were given the same list. *)
Theorem clean_room_round_trip (w : world) (ids1 ids2 : list scalar) :
  (exists payload zone,
     sent (clean_room ids1 w).2 =
       sent w ++ [(name (self w), sub_type (self w), payload)]
     /\ payload !! SELECTED_ZONE = Some (VList zone)
     /\ length zone = length ids1
     /\ forall i, zone !! i =
          (fun id => VDict {[ "room_id" := VScalar id ]}) <$> ids1 !! i)
  /\ (sent (clean_room ids1 w).2 = sent (clean_room ids2 w).2
      <-> ids1 = ids2).
Proof.
  split.
  - eexists. eexists. split; [reflexivity |]. split; [| split].
    + apply dict_display_two_last.
    + rewrite room_loop_map. apply length_map.
    + intros i. rewrite room_loop_map.
      change (List.map ?f ?l) with (f <$> l). apply list_lookup_fmap.
  - split; [| by intros ->].
    unfold clean_room, m_bind, get_self, send_command. simpl. intros Heq.
    apply sent_snoc_inj in Heq.
    apply (f_equal (fun c => c.2 !! SELECTED_ZONE)) in Heq. cbn [snd] in Heq.
    rewrite !dict_display_two_last, !room_loop_map in Heq.
    apply room_entries_inj. by injection Heq.
Qed.

End Payloads.

(** ** More on [clean_zone] *)

Section ZoneEdges.
Context `{WebackWssCtrl} `{MapDrawing}.

Ltac split_coord :=
  match goal with
  | |- context [scaled_coord ?b ?i] =>
      destruct (scaled_coord b i); cbn [rbind]; [| try reflexivity]
  end.

Lemma scaled_coord_take (box : list Z) (i : nat) :
  (i < 4)%nat -> scaled_coord (take 4 box) i = scaled_coord box i.
Proof.
  intros Hi. unfold scaled_coord, list_getitem. by rewrite lookup_take_lt.
Qed.

Lemma zone_loop_take (bounding : list (list Z)) :
  forall box_x box_y,
    zone_loop (List.map (take 4) bounding) box_x box_y
    = zone_loop bounding box_x box_y.
Proof.
  induction bounding as [| box rest IH]; intros box_x box_y; [done |].
  cbn [List.map zone_loop]. rewrite !scaled_coord_take by lia.
  repeat split_coord. apply IH.
Qed.

(** X9: only the first four entries of a box count: cutting every box
    down to its first four entries changes neither what [clean_zone]
    sends nor whether it raises. *)
Theorem clean_zone_ignores_extra_entries (bounding : list (list Z)) (w : world) :
  clean_zone (List.map (take 4) bounding) w = clean_zone bounding w.
Proof.
  unfold clean_zone, m_bind, get_self, lift.
  by rewrite zone_loop_take, length_map.
Qed.

Lemma zone_loop_short_box (bounding : list (list Z)) :
  Forall (Forall coordinate_in_range) bounding ->
  Exists (fun box => (length box < 4)%nat) bounding ->
  forall box_x box_y, zone_loop bounding box_x box_y = Raise IndexError.
Proof.
  induction bounding as [| box rest IH]; intros Hrange Hshort box_x box_y.
  - by apply Exists_nil in Hshort.
  - apply Forall_cons in Hrange as [Hbox Hrange]. cbn [zone_loop].
    destruct box as [| a [| b [| c [| d extra]]]].
    + reflexivity.
    + apply Forall_cons in Hbox as [Ha _].
      rewrite (scaled_coord_in_range [a] 0 a eq_refl Ha). reflexivity.
    + apply Forall_cons in Hbox as [Ha Hbox].
      apply Forall_cons in Hbox as [Hb _].
      rewrite (scaled_coord_in_range [a; b] 0 a eq_refl Ha). reflexivity.
    + apply Forall_cons in Hbox as [Ha Hbox].
      apply Forall_cons in Hbox as [Hb Hbox].
      apply Forall_cons in Hbox as [Hc _].
      rewrite (scaled_coord_in_range [a; b; c] 0 a eq_refl Ha).
      rewrite (scaled_coord_in_range [a; b; c] 2 c eq_refl Hc).
      rewrite (scaled_coord_in_range [a; b; c] 1 b eq_refl Hb).
      reflexivity.
    + apply Forall_cons in Hbox as [Ha Hbox].
      apply Forall_cons in Hbox as [Hb Hbox].
      apply Forall_cons in Hbox as [Hc Hbox].
      apply Forall_cons in Hbox as [Hd _].
      rewrite (scaled_coord_in_range (a :: b :: c :: d :: extra) 0 a eq_refl Ha).
      rewrite (scaled_coord_in_range (a :: b :: c :: d :: extra) 2 c eq_refl Hc).
      rewrite (scaled_coord_in_range (a :: b :: c :: d :: extra) 1 b eq_refl Hb).
      rewrite (scaled_coord_in_range (a :: b :: c :: d :: extra) 3 d eq_refl Hd).
      cbn [rbind]. apply IH; [done |].
      apply Exists_cons in Hshort as [Hlen | Hrest]; [| done].
      simpl in Hlen. lia.
Qed.

(** X10: one box with fewer than four entries spoils the whole call: with
    all coordinates below 2^53 in magnitude, [clean_zone] raises
    [IndexError] and sends nothing, also for the well-formed boxes before
    and after the short one. *)
Theorem clean_zone_short_box (bounding : list (list Z)) (w : world) :
  Forall (Forall coordinate_in_range) bounding ->
  Exists (fun box => (length box < 4)%nat) bounding ->
  clean_zone bounding w = (Raise IndexError, w).
Proof.
  intros Hrange Hshort. unfold clean_zone, m_bind, get_self, lift.
  by rewrite (zone_loop_short_box bounding Hrange Hshort).
Qed.

Lemma fneg_fneg (f : float64) : fneg (fneg f) = f.
Proof. destruct f as [m e]. unfold fneg. simpl. f_equal. lia. Qed.

Lemma int_of_float_fneg (f : float64) :
  int_of_float (fneg f) = - int_of_float f.
Proof.
  destruct f as [m e]. unfold int_of_float, fneg. simpl.
  destruct (Z.leb_spec 0 e) as [He | He]; [lia |].
  apply Z.quot_opp_l.
  assert (0 < 2 ^ (- e)) by (apply Z.pow_pos_nonneg; lia). lia.
Qed.

Lemma py_truediv_opp (c : Z) :
  py_truediv (- c) 10 =
    match py_truediv c 10 with
    | Ok f => Ok (fneg f)
    | Raise e => Raise e
    end.
Proof.
  unfold py_truediv. change (10 =? 0) with false. cbv iota.
  change (Z.sgn 10) with 1.
  destruct (Z.eqb_spec c 0) as [-> | Hc]; [reflexivity |].
  destruct (Z.eqb_spec (- c) 0) as [Hc' | _]; [lia |].
  rewrite Z.abs_opp.
  destruct (truediv_pos (Z.abs c) (Z.abs 10)) as [f | e]; simpl; [| done].
  destruct (Z.ltb_spec (Z.sgn (- c) * 1) 0), (Z.ltb_spec (Z.sgn c * 1) 0);
    try lia; [done | by rewrite fneg_fneg].
Qed.

Lemma scaled_coord_opp (box : list Z) (i : nat) :
  scaled_coord (List.map Z.opp box) i =
    match scaled_coord box i with
    | Ok z => Ok (- z)
    | Raise e => Raise e
    end.
Proof.
  unfold scaled_coord, list_getitem.
  change (List.map Z.opp box) with (Z.opp <$> box).
  rewrite list_lookup_fmap.
  destruct (box !! i) as [c |]; simpl; [| done].
  rewrite py_truediv_opp.
  destruct (py_truediv c 10) as [f | e]; simpl; [| done].
  by rewrite int_of_float_fneg.
Qed.

(** X11: the scaling is odd, for integers of every size: on the boxes
    with all coordinates negated the loop of [clean_zone] yields the
    negated X and Y values, and raises where it raised before; the
    quotient is cut toward zero on both sides, never floored. *)
Theorem zone_loop_mirrored (bounding : list (list Z)) :
  forall box_x box_y,
    zone_loop (List.map (List.map Z.opp) bounding)
      (List.map Z.opp box_x) (List.map Z.opp box_y)
    = match zone_loop bounding box_x box_y with
      | Ok (xs, ys) => Ok (List.map Z.opp xs, List.map Z.opp ys)
      | Raise e => Raise e
      end.
Proof.
  induction bounding as [| box rest IH]; intros box_x box_y.
  - reflexivity.
  - cbn [List.map zone_loop]. rewrite !scaled_coord_opp.
    repeat split_coord.
    rewrite <- IH, !List.map_app. reflexivity.
Qed.

End ZoneEdges.

(** ** The exact reach of the scaling *)

Lemma scaled_quotient_floor_4 (a : Z) :
  0 <= a -> a mod 10 <= 8 -> rne_div (a * 4) 10 / 4 = a / 10.
Proof.
  intros Ha Hr.
  pose proof (rne_div_bounds (a * 4) 10 ltac:(lia) ltac:(lia)) as Hm.
  pose proof (Z.div_mod a 10 ltac:(lia)) as Hdiv.
  pose proof (Z.mod_pos_bound a 10 ltac:(lia)) as Hmod.
  set (m := rne_div (a * 4) 10) in *.
  symmetry. apply (Z.div_unique m 4 (a / 10) (m - 4 * (a / 10))); lia.
Qed.

Lemma quotient_exponent_53 (a : Z) :
  2 ^ 53 <= a <= 11258999068426248 ->
  quotient_exponent a 10 = (if 11258999068426240 <=? a then -2 else -3).
Proof.
  intros Ha. unfold quotient_exponent.
  assert (Hlog : Z.log2 a = 53).
  { apply Z.log2_unique; [lia |]. change (2 ^ 53) with 9007199254740992 in *.
    change (2 ^ Z.succ 53) with 18014398509481984. lia. }
  rewrite Hlog. change (Z.log2 10) with 3. unfold scaled_le.
  change (pow2 (53 - 3)) with 1125899906842624.
  change (pow2 (- (53 - 3))) with 1.
  replace (10 * 1125899906842624 <=? a * 1) with (11258999068426240 <=? a)
    by (destruct (Z.leb_spec 11258999068426240 a),
          (Z.leb_spec (10 * 1125899906842624) (a * 1)); lia).
  by destruct (11258999068426240 <=? a).
Qed.

Lemma truediv_pos_exact (a : Z) :
  0 < a <= 11258999068426248 ->
  exists f, truediv_pos a 10 = Ok f
            /\ exponent f < 0 /\ 0 <= significand f
            /\ significand f / 2 ^ (- exponent f) = a / 10.
Proof.
  intros Ha.
  destruct (Z.lt_ge_cases a (2 ^ 53)) as [Hsmall | Hbig].
  { apply truediv_pos_small. lia. }
  pose proof (quotient_exponent_53 a ltac:(lia)) as He.
  unfold truediv_pos. rewrite He.
  destruct (Z.leb_spec 11258999068426240 a) as [Htop | Hmid].
  - change (pow2 (- -2)) with 4. change (pow2 (-2)) with 1.
    change ((0 <=? -2) && _) with false. cbv iota.
    eexists. split; [reflexivity |]. simpl. rewrite Z.mul_1_r.
    split; [lia | split].
    + pose proof (rne_div_bounds (a * 4) 10 ltac:(lia) ltac:(lia)). lia.
    + change (2 ^ 2) with 4. apply scaled_quotient_floor_4; [lia |].
      pose proof (Z.div_mod a 10 ltac:(lia)).
      pose proof (Z.mod_pos_bound a 10 ltac:(lia)). lia.
  - change (pow2 (- -3)) with 8. change (pow2 (-3)) with 1.
    change ((0 <=? -3) && _) with false. cbv iota.
    eexists. split; [reflexivity |]. simpl. rewrite Z.mul_1_r.
    split; [lia | split].
    + pose proof (rne_div_bounds (a * 8) 10 ltac:(lia) ltac:(lia)). lia.
    + change (2 ^ 3) with 8. apply scaled_quotient_floor; lia.
Qed.

Lemma int_truediv_ten_exact (x : Z) :
  - 11258999068426248 <= x <= 11258999068426248 ->
  (do q <- py_truediv x 10; Ok (int_of_float q)) = Ok (x ÷ 10).
Proof.
  intros Hx. unfold py_truediv.
  change (10 =? 0) with false. cbv iota.
  destruct (Z.eqb_spec x 0) as [-> | Hx0]; [reflexivity |].
  change (Z.abs 10) with 10. change (Z.sgn 10) with 1.
  destruct (truediv_pos_exact (Z.abs x) ltac:(lia))
    as (f & Hf & Hexp & Hsig & Hquot).
  rewrite Hf. cbn [rbind]. f_equal.
  assert (Hpow : 0 < 2 ^ (- exponent f)) by (apply Z.pow_pos_nonneg; lia).
  assert (Hint : int_of_float f = Z.abs x / 10).
  { unfold int_of_float. replace (0 <=? exponent f) with false by lia.
    by rewrite Z.quot_div_nonneg by lia. }
  destruct (Z.ltb_spec (Z.sgn x * 1) 0) as [Hs | Hs].
  - rewrite int_of_float_fneg, Hint.
    replace (Z.abs x) with (- x) by lia.
    rewrite <- Z.quot_div_nonneg by lia.
    rewrite Z.quot_opp_l by lia. lia.
  - rewrite Hint. replace (Z.abs x) with x by lia.
    by rewrite Z.quot_div_nonneg by lia.
Qed.

Section ZoneReach.
Context `{WebackWssCtrl} `{MapDrawing}.

(** X12: the exact reach of [int(c / 10)]: for every integer coordinate
    of magnitude up to 11258999068426248 (10 * 2^50 + 8) the value sent is
    the quotient cut toward zero, and at the very next integer it is one
    too large. *)
Theorem scaled_coord_exact_reach (box : list Z) (i : nat) (c : Z) :
  (box !! i = Some c -> - 11258999068426248 <= c <= 11258999068426248 ->
   scaled_coord box i = Ok (c ÷ 10))
  /\ scaled_coord [11258999068426249] 0 = Ok (11258999068426249 ÷ 10 + 1).
Proof.
  split; [| by vm_compute].
  intros Hbox Hc. unfold scaled_coord, list_getitem. rewrite Hbox.
  cbn [rbind]. by apply int_truediv_ten_exact.
Qed.

(** X13: within that reach a box keeps its orientation and small boxes
    collapse: for [x1 <= x2] and [y1 <= y2] the four X values sent are
    (a, a, b, b) with [a <= b] and the four Y values (c, d, d, c) with
    [c <= d], none larger in magnitude than a tenth of its coordinate;
    a box whose coordinates all lie strictly between -10 and 10 is sent
    as the single point (0, 0). *)
Theorem zone_loop_oriented (x1 y1 x2 y2 : Z) :
  Forall (fun c => - 11258999068426248 <= c <= 11258999068426248)
         [x1; y1; x2; y2] ->
  exists a b c d,
    zone_loop [[x1; y1; x2; y2]] [] [] = Ok ([a; a; b; b], [c; d; d; c])
    /\ (x1 <= x2 -> a <= b) /\ (y1 <= y2 -> c <= d)
    /\ 10 * Z.abs a <= Z.abs x1 /\ 10 * Z.abs b <= Z.abs x2
    /\ 10 * Z.abs c <= Z.abs y1 /\ 10 * Z.abs d <= Z.abs y2
    /\ (Forall (fun v => -10 < v < 10) [x1; y1; x2; y2] ->
        a = 0 /\ b = 0 /\ c = 0 /\ d = 0).
Proof.
  intros Hreach.
  apply Forall_cons in Hreach as [Hx1 Hreach].
  apply Forall_cons in Hreach as [Hy1 Hreach].
  apply Forall_cons in Hreach as [Hx2 Hreach].
  apply Forall_cons in Hreach as [Hy2 _].
  exists (x1 ÷ 10), (x2 ÷ 10), (y1 ÷ 10), (y2 ÷ 10).
  assert (Hcoord : forall i v, [x1; y1; x2; y2] !! i = Some v ->
            - 11258999068426248 <= v <= 11258999068426248 ->
            scaled_coord [x1; y1; x2; y2] i = Ok (v ÷ 10)).
  { intros i v Hi Hv. unfold scaled_coord, list_getitem. rewrite Hi.
    cbn [rbind]. by apply int_truediv_ten_exact. }
  assert (Habs : forall v, 10 * Z.abs (v ÷ 10) <= Z.abs v).
  { intros v. destruct (Z.le_gt_cases 0 v) as [Hv | Hv].
    - rewrite Z.quot_div_nonneg by lia.
      pose proof (Z.mul_div_le v 10 ltac:(lia)).
      pose proof (Z.div_pos v 10 Hv ltac:(lia)). lia.
    - replace v with (- (- v)) at 1 by lia.
      rewrite Z.quot_opp_l by lia. rewrite Z.quot_div_nonneg by lia.
      pose proof (Z.mul_div_le (- v) 10 ltac:(lia)).
      pose proof (Z.div_pos (- v) 10 ltac:(lia) ltac:(lia)). lia. }
  split; [| repeat split].
  - cbn [zone_loop].
    rewrite (Hcoord 0%nat x1 eq_refl Hx1), (Hcoord 2%nat x2 eq_refl Hx2).
    rewrite (Hcoord 1%nat y1 eq_refl Hy1), (Hcoord 3%nat y2 eq_refl Hy2).
    reflexivity.
  - intros Hle. apply Z.quot_le_mono; lia.
  - intros Hle. apply Z.quot_le_mono; lia.
  - apply Habs.
  - apply Habs.
  - apply Habs.
  - apply Habs.
  - apply Forall_cons in H1 as [? _]. apply Z.quot_small_iff; lia.
  - apply Forall_cons in H1 as [_ H1]. apply Forall_cons in H1 as [_ H1].
    apply Forall_cons in H1 as [? _]. apply Z.quot_small_iff; lia.
  - apply Forall_cons in H1 as [_ H1]. apply Forall_cons in H1 as [? _].
    apply Z.quot_small_iff; lia.
  - apply Forall_cons in H1 as [_ H1]. apply Forall_cons in H1 as [_ H1].
    apply Forall_cons in H1 as [_ H1]. apply Forall_cons in H1 as [? _].
    apply Z.quot_small_iff; lia.
Qed.

End ZoneReach.

(** ** Decimal strings *)

Ltac read_digit :=
  match goal with
  | |- context [digit_val ?c] =>
      let v := eval vm_compute in (digit_val c) in
      change (digit_val c) with v
  end.

Lemma scan_digits_uint (d : Decimal.uint) :
  forall d' : Decimal.uint,
    scan_digits (Z.of_N (DecimalPos.Unsigned.of_lu d')) false (NilEmpty.string_of_uint d)
    = Some (Z.of_N (DecimalPos.Unsigned.of_lu (Decimal.revapp d d')), EmptyString).
Proof.
  induction d as [| d IH | d IH | d IH | d IH | d IH | d IH | d IH | d IH
                 | d IH | d IH]; intros d'; [reflexivity | ..];
    cbn [NilEmpty.string_of_uint Decimal.revapp scan_digits];
    read_digit; cbv iota beta; rewrite <- IH; f_equal;
    cbn [DecimalPos.Unsigned.of_lu]; lia.
Qed.

Lemma scan_number_uint (d : Decimal.uint) :
  d <> Decimal.Nil ->
  scan_number (NilEmpty.string_of_uint d)
  = Some (Z.of_N (Pos.of_uint d), EmptyString).
Proof.
  intros Hd. rewrite DecimalPos.Unsigned.of_uint_alt. unfold Decimal.rev.
  destruct d; [done | ..];
    cbn [NilEmpty.string_of_uint Decimal.revapp scan_number];
    read_digit; cbv iota beta; rewrite <- scan_digits_uint; reflexivity.
Qed.

Lemma skip_spaces_all (ws : string) :
  all_spaces ws = true -> skip_spaces ws = EmptyString.
Proof.
  induction ws as [| c ws IH]; simpl; [done |].
  intros Hws. apply andb_true_iff in Hws as [-> Hws]. by apply IH.
Qed.

Lemma all_spaces_app (a b : string) :
  all_spaces a = true -> all_spaces b = true ->
  all_spaces (String.append a b) = true.
Proof.
  induction a as [| c a IH]; simpl; [done |].
  intros Ha Hb. apply andb_true_iff in Ha as [-> Ha]. by apply IH.
Qed.

Lemma scan_digits_padded (s : string) :
  forall acc prev n rest ws,
    scan_digits acc prev s = Some (n, rest) -> all_spaces ws = true ->
    scan_digits acc prev (String.append s ws) = Some (n, String.append rest ws).
Proof.
  induction s as [| c s IH]; intros acc prev n rest ws; cbn [scan_digits].
  - destruct prev; [discriminate |]. intros [= <- <-] Hws.
    destruct ws as [| c ws]; [reflexivity |].
    simpl in Hws. apply andb_true_iff in Hws as [Hc _].
    simpl. by rewrite (space_not_digit c Hc), (space_not_underscore c Hc).
  - simpl.
    destruct (digit_val c) as [d |]; [apply IH |].
    destruct (is_underscore c).
    + destruct prev; [discriminate | apply IH].
    + destruct prev; [discriminate |]. by intros [= <- <-] _.
Qed.

(** White space around a string the scan converts does not change the
    result. *)
Lemma parse_int_padded (s ws1 ws2 : string) (n : Z) :
  parse_int s = Ok n ->
  all_spaces ws1 = true -> all_spaces ws2 = true ->
  parse_int (String.append ws1 (String.append s ws2)) = Ok n.
Proof.
  unfold parse_int. intros Hint Hws1 Hws2.
  rewrite (skip_all_spaces _ _ Hws1).
  assert (Hskip : skip_spaces (String.append s ws2)
                  = String.append (skip_spaces s) ws2
                  /\ skip_spaces s <> EmptyString).
  { clear Hws1. induction s as [| c s IH].
    - exfalso. revert Hint. by vm_compute.
    - simpl in *. destruct (is_space c); [by apply IH | done]. }
  destruct Hskip as [-> Hne].
  destruct (skip_spaces s) as [| c body] eqn:Hs; [done |].
  simpl in Hint. simpl.
  assert (Hbody : forall sign b,
            match scan_number b with
            | Some (m, rest) =>
                match skip_spaces rest with
                | EmptyString => Ok (sign * m)
                | String _ _ => Raise ValueError
                end
            | None => Raise ValueError
            end = Ok n ->
            match scan_number (String.append b ws2) with
            | Some (m, rest) =>
                match skip_spaces rest with
                | EmptyString => Ok (sign * m)
                | String _ _ => Raise ValueError
                end
            | None => Raise ValueError
            end = Ok n).
  { intros sign b. unfold scan_number.
    destruct b as [| c0 b]; [discriminate |]. simpl.
    destruct (digit_val c0) as [d |]; [| discriminate].
    destruct (scan_digits d false b) as [[m rest] |] eqn:Hscan;
      [| discriminate].
    rewrite (scan_digits_padded b d false m rest ws2 Hscan Hws2).
    destruct (skip_spaces rest) eqn:Hrest; [| discriminate].
    intros Hok. apply skip_spaces_empty in Hrest.
    by rewrite (skip_spaces_all _ (all_spaces_app _ _ Hrest Hws2)). }
  destruct (code c =? 43); [by apply Hbody |].
  destruct (code c =? 45); [by apply Hbody |].
  by apply (Hbody 1 (String c body)).
Qed.

Lemma parse_int_digits (c : ascii) (r : string) (n : Z) :
  is_digit c = true ->
  scan_number (String c r) = Some (n, EmptyString) ->
  parse_int (String c r) = Ok n
  /\ parse_int (String "-" (String c r)) = Ok (- n).
Proof.
  intros Hc Hscan. destruct (digit_not_sign c Hc) as [Hplus Hminus].
  unfold parse_int. split.
  - cbn [skip_spaces]. rewrite (digit_not_space c Hc). cbn [split_sign].
    rewrite Hplus, Hminus. cbv beta iota. rewrite Hscan. cbn. f_equal; lia.
  - change (skip_spaces (String "-" (String c r)))
      with (String "-" (String c r)).
    change (split_sign (String "-" (String c r))) with (-1, String c r).
    cbv beta iota. rewrite Hscan. cbn. f_equal; lia.
Qed.

Lemma string_of_uint_digit (d : Decimal.uint) :
  d <> Decimal.Nil ->
  exists c r, NilEmpty.string_of_uint d = String c r /\ is_digit c = true.
Proof. intros Hd. destruct d; [done | ..]; by eexists _, _. Qed.

(** The scan reads the decimal writing of every integer back. *)
Lemma parse_int_decimal (z : Z) : parse_int (decimal_string z) = Ok z.
Proof.
  unfold decimal_string. destruct z as [| p | p]; [reflexivity | |];
    cbn [Z.to_int NilZero.string_of_int]; unfold NilZero.string_of_uint;
    pose proof (DecimalPos.Unsigned.to_uint_nonnil p) as Hnil;
    pose proof (scan_number_uint (Pos.to_uint p) Hnil) as Hscan;
    destruct (string_of_uint_digit (Pos.to_uint p) Hnil) as (c & r & Hstr & Hc);
    rewrite DecimalPos.Unsigned.of_to in Hscan;
    replace (match Pos.to_uint p with
             | Decimal.Nil => "0"
             | _ => NilEmpty.string_of_uint (Pos.to_uint p)
             end) with (NilEmpty.string_of_uint (Pos.to_uint p))
      by (by destruct (Pos.to_uint p));
    rewrite Hstr in *.
  - apply (parse_int_digits c r _ Hc Hscan).
  - apply (parse_int_digits c r _ Hc Hscan).
Qed.

Lemma count_digits_app (a b : string) :
  count_digits (String.append a b) = (count_digits a + count_digits b)%N.
Proof. induction a as [| c a IH]; simpl; [done |]. rewrite IH. lia. Qed.

Lemma count_digits_spaces (ws : string) :
  all_spaces ws = true -> count_digits ws = 0%N.
Proof.
  induction ws as [| c ws IH]; simpl; [done |].
  intros Hws. apply andb_true_iff in Hws as [Hc Hws].
  rewrite (IH Hws). unfold is_digit, is_space in *.
  destruct ((48 <=? code c) && (code c <=? 57)) eqn:Hd; [lia | done].
Qed.

Section BatteryNumbers.
Context `{MapDrawing}.

(** X14: [battery_level] gives back the number the device reported,
    whether it came as a JSON integer or as its decimal string ("87",
    "-3", "250"), with or without white space around it, as long as the
    string has no more digits than [int] takes (4300); the value is not
    clamped to a percentage. *)
Theorem battery_level_reads_number (s : VacDevice) (z : Z) :
  (robot_status s !! "battery_level" = Some (SInt z) -> battery_level s = Ok z)
  /\ ((count_digits (decimal_string z) <= max_str_digits)%N ->
      robot_status s !! "battery_level" = Some (SStr (decimal_string z)) ->
      battery_level s = Ok z)
  /\ (forall ws1 ws2,
        all_spaces ws1 = true -> all_spaces ws2 = true ->
        (count_digits (decimal_string z) <= max_str_digits)%N ->
        robot_status s !! "battery_level"
          = Some (SStr (String.append ws1
                          (String.append (decimal_string z) ws2))) ->
        battery_level s = Ok z).
Proof.
  unfold battery_level. split; [| split].
  - by intros ->.
  - intros Hfew ->. cbn [py_int]. unfold int_of_string.
    destruct (N.ltb_spec max_str_digits (count_digits (decimal_string z)))
      as [Hmany | _]; [lia |].
    apply parse_int_decimal.
  - intros ws1 ws2 Hws1 Hws2 Hfew ->. cbn [py_int]. unfold int_of_string.
    rewrite !count_digits_app, (count_digits_spaces _ Hws1),
      (count_digits_spaces _ Hws2).
    destruct (N.ltb_spec max_str_digits
                (0 + (count_digits (decimal_string z) + 0))) as [Hmany | _];
      [lia |].
    apply parse_int_padded; [apply parse_int_decimal | done | done].
Qed.

End BatteryNumbers.

(** ** Rendering, cameras and map loading *)

Section Maps.
Context `{WebackWssCtrl} `{MapLoading}.

Lemma render_map_cases (w : world) :
  match map (self w) with
  | None => render_map w = (Ok false, w)
  | Some m =>
      render_map w =
        (Ok true,
         {| self :=
              {| name := name (self w);
                 nickname := nickname (self w);
                 sub_type := sub_type (self w);
                 robot_status := robot_status (self w);
                 map := Some m;
                 map_image_buffer := Some (render_image m);
                 map_camera := map_camera (self w) |};
            sent := sent w;
            camera_updates :=
              camera_updates w ++ option_list (map_camera (self w)) |})
  end.
Proof.
  destruct (map (self w)) as [m |] eqn:Hmap.
  - unfold render_map, m_bind, get_self, m_ret, set_map_image_buffer,
      trigger_map_camera_update, m_bind, get_self, schedule_update_ha_state.
    rewrite Hmap. simpl.
    destruct (map_camera (self w)); simpl; rewrite ?app_nil_r, Hmap; done.
  - by apply render_map_none.
Qed.

(** X15: what [render_map] does around the drawing: it returns [False]
    exactly when no map is loaded, and then changes nothing; when it
    returns [True] the registered camera has been asked to refresh
    exactly once (no camera, no notification) and the image of the map
    is stored; in every case it sends no command and leaves the status,
    the map, the registered camera and the identity of the device as
    they were. *)
Theorem render_map_effects (w : world) :
  ((render_map w).1 = Ok false <-> map (self w) = None)
  /\ (map (self w) = None -> (render_map w).2 = w)
  /\ ((render_map w).1 = Ok true ->
      exists m,
        map (self w) = Some m
        /\ camera_updates (render_map w).2 =
             camera_updates w ++ option_list (map_camera (self w))
        /\ map_image_buffer (self (render_map w).2) = Some (render_image m))
  /\ sent (render_map w).2 = sent w
  /\ robot_status (self (render_map w).2) = robot_status (self w)
  /\ map (self (render_map w).2) = map (self w)
  /\ map_camera (self (render_map w).2) = map_camera (self w)
  /\ name (self (render_map w).2) = name (self w)
  /\ sub_type (self (render_map w).2) = sub_type (self w).
Proof.
  pose proof (render_map_cases w) as Hcases.
  destruct (map (self w)) as [m |] eqn:Hmap; rewrite Hcases; simpl.
  - repeat split; try done. intros _. by exists m.
  - repeat split; done.
Qed.

(** X16: the camera registered last is the one that is notified: after
    two registrations a render of a loaded map adds one notification, for
    the second camera, and stores the map's image. *)
Theorem last_registered_camera_wins (w : world) (m : VacMap) (c1 c2 : nat) :
  map (self w) = Some m ->
  let w' :=
    (render_map (register_map_camera c2 (register_map_camera c1 w).2).2).2 in
  camera_updates w' = camera_updates w ++ [c2]
  /\ map_image_buffer (self w') = Some (render_image m)
  /\ map_camera (self w') = Some c2.
Proof.
  intros Hmap w'. subst w'.
  set (w2 := (register_map_camera c2 (register_map_camera c1 w).2).2).
  pose proof (render_map_cases w2) as Hcases.
  assert (Hm2 : map (self w2) = Some m) by (subst w2; simpl; done).
  rewrite Hm2 in Hcases. rewrite Hcases. done.
Qed.

Lemma load_maps_no_id (w : world) :
  robot_status (self w) !! ACTIVE_MAP_ID_PROP = None ->
  load_maps w = (Ok (Some false), w).
Proof.
  intros Hid. unfold load_maps, m_bind, get_self, m_ret.
  rewrite bool_decide_eq_false_2; [done |]. rewrite Hid. by intros [? ?].
Qed.

Lemma load_maps_with_id (w : world) (map_id : scalar) :
  robot_status (self w) !! ACTIVE_MAP_ID_PROP = Some map_id ->
  load_maps w =
    match get_reuse_map_by_id map_id (sub_type (self w)) (name (self w)) with
    | Raise e => (Raise e, w)
    | Ok None => (Ok None, w)
    | Ok (Some data) =>
        match VacMap_new data with
        | Raise e => (Raise e, w)
        | Ok m =>
            (Ok None,
             {| self :=
                  {| name := name (self w);
                     nickname := nickname (self w);
                     sub_type := sub_type (self w);
                     robot_status := robot_status (self w);
                     map := Some m;
                     map_image_buffer := Some (render_image m);
                     map_camera := map_camera (self w) |};
                sent := sent w;
                camera_updates :=
                  camera_updates w ++ option_list (map_camera (self w)) |})
        end
    end.
Proof.
  intros Hid. unfold load_maps, m_bind at 1, get_self, m_ret.
  rewrite bool_decide_eq_true_2 by (rewrite Hid; eauto). simpl.
  unfold m_bind at 1, lift. rewrite (getitem_Some _ _ _ Hid).
  unfold m_bind at 1.
  destruct (get_reuse_map_by_id map_id (sub_type (self w)) (name (self w)))
    as [[data |] | e]; [| done | done].
  unfold m_bind at 1. destruct (VacMap_new data) as [m | e]; [| done].
  unfold m_bind at 1, set_map. unfold m_bind.
  match goal with
  | |- context [render_map ?w2] =>
      pose proof (render_map_cases w2) as Hcases
  end.
  simpl in Hcases. by rewrite Hcases.
Qed.

(** X17: the paths of [load_maps] that end before the map is rendered
    leave the world exactly as it was, so the old map and image stay:
    without the active-map key it returns [False]; when the fetch raises,
    that exception comes out; when the fetch gives a false value it
    returns [None]; when [VacMap] raises on the fetched data, that
    exception comes out and the map has not been replaced. *)
Theorem load_maps_failure_paths (w : world) :
  (robot_status (self w) !! ACTIVE_MAP_ID_PROP = None ->
   load_maps w = (Ok (Some false), w))
  /\ (forall map_id,
        robot_status (self w) !! ACTIVE_MAP_ID_PROP = Some map_id ->
        (forall e,
           get_reuse_map_by_id map_id (sub_type (self w)) (name (self w))
             = Raise e ->
           load_maps w = (Raise e, w))
        /\ (get_reuse_map_by_id map_id (sub_type (self w)) (name (self w))
              = Ok None ->
            load_maps w = (Ok None, w))
        /\ (forall data e,
              get_reuse_map_by_id map_id (sub_type (self w)) (name (self w))
                = Ok (Some data) ->
              VacMap_new data = Raise e ->
              load_maps w = (Raise e, w))).
Proof.
  split; [apply load_maps_no_id |].
  intros map_id Hid. rewrite (load_maps_with_id w map_id Hid).
  split; [| split].
  - by intros e ->.
  - by intros ->.
  - by intros data e -> ->.
Qed.

(** X18: the return value of [load_maps] does not tell whether a map was
    loaded: it is [False] exactly when the status names no active map,
    and otherwise [None] (or an exception of the fetch or of the map
    constructor), also after a successful load; it is never [True]. *)
Theorem load_maps_return_value (w : world) :
  ((load_maps w).1 = Ok (Some false) <->
     robot_status (self w) !! ACTIVE_MAP_ID_PROP = None)
  /\ (load_maps w).1 <> Ok (Some true)
  /\ (forall map_id data m,
        robot_status (self w) !! ACTIVE_MAP_ID_PROP = Some map_id ->
        get_reuse_map_by_id map_id (sub_type (self w)) (name (self w))
          = Ok (Some data) ->
        VacMap_new data = Ok m ->
        (load_maps w).1 = Ok None /\ map (self (load_maps w).2) = Some m).
Proof.
  destruct (robot_status (self w) !! ACTIVE_MAP_ID_PROP) as [map_id |] eqn:Hid.
  - rewrite (load_maps_with_id w map_id Hid). split; [| split].
    + destruct (get_reuse_map_by_id _ _ _) as [[data |] | e];
        [destruct (VacMap_new data) | |]; simpl; split; discriminate.
    + destruct (get_reuse_map_by_id _ _ _) as [[data |] | e];
        [destruct (VacMap_new data) | |]; simpl; discriminate.
    + intros ? data m [= <-] -> ->. done.
  - rewrite (load_maps_no_id w Hid). simpl. split; [done |].
    split; [discriminate | discriminate].
Qed.

End Maps.

(** ** Sequences of calls *)

Section Calls.
Context `{WebackWssCtrl} `{MapLoading}.

Lemma ignore_world {A} (m : M A) (w : world) : (ignore m w).2 = (m w).2.
Proof. unfold ignore, m_bind, m_ret. by destruct (m w) as [[a | e] w']. Qed.

Lemma perform_self (r : request) (w : world) :
  self (perform r w).2 = self w
  /\ camera_updates (perform r w).2 = camera_updates w
  /\ sent w `prefix_of` sent (perform r w).2.
Proof.
  destruct (perform_sends_or_not r w) as [[-> _] | (p & _ & ->)]; simpl.
  - done.
  - repeat split. by apply prefix_app_r.
Qed.

Lemma load_maps_world (w : world) :
  (load_maps w).2 = w
  \/ exists m,
       (load_maps w).2 =
         {| self :=
              {| name := name (self w);
                 nickname := nickname (self w);
                 sub_type := sub_type (self w);
                 robot_status := robot_status (self w);
                 map := Some m;
                 map_image_buffer := Some (render_image m);
                 map_camera := map_camera (self w) |};
            sent := sent w;
            camera_updates :=
              camera_updates w ++ option_list (map_camera (self w)) |}.
Proof.
  destruct (robot_status (self w) !! ACTIVE_MAP_ID_PROP) as [map_id |] eqn:Hid.
  - rewrite (load_maps_with_id w map_id Hid).
    destruct (get_reuse_map_by_id map_id (sub_type (self w)) (name (self w)))
      as [[data |] | e]; [| by left | by left].
    destruct (VacMap_new data) as [m | e]; [| by left].
    right. by exists m.
  - left. by rewrite (load_maps_no_id w Hid).
Qed.

Lemma make_call_map_kept (c : call) (w : world) :
  (is_Some (map (self w)) -> is_Some (map (self (make_call c w).2)))
  /\ ((map (self w) = None -> map_image_buffer (self w) = None) ->
      map (self (make_call c w).2) = None ->
      map_image_buffer (self (make_call c w).2) = None).
Proof.
  destruct c; cbn [make_call].
  - by rewrite (proj1 (perform_self r w)).
  - rewrite ignore_world.
    destruct (load_maps_world w) as [-> | (m & ->)]; simpl; [done |].
    split; [by eauto | discriminate].
  - rewrite ignore_world. pose proof (render_map_cases w) as Hcases.
    destruct (map (self w)) as [m |] eqn:Hmap; rewrite Hcases; simpl.
    + split; [by eauto | discriminate].
    + rewrite Hmap. done.
  - done.
  - unfold trigger_map_camera_update, m_bind, get_self, m_ret,
      schedule_update_ha_state.
    by destruct (map_camera (self w)).
Qed.

Lemma make_call_frame (c : call) (w : world) :
  robot_status (self (make_call c w).2) = robot_status (self w)
  /\ name (self (make_call c w).2) = name (self w)
  /\ nickname (self (make_call c w).2) = nickname (self w)
  /\ sub_type (self (make_call c w).2) = sub_type (self w)
  /\ sent w `prefix_of` sent (make_call c w).2
  /\ camera_updates w `prefix_of` camera_updates (make_call c w).2.
Proof.
  destruct c; cbn [make_call].
  - destruct (perform_self r w) as (-> & -> & Hsent). done.
  - rewrite ignore_world.
    destruct (load_maps_world w) as [-> | (m & ->)]; simpl; [done |].
    repeat split; try done. by apply prefix_app_r.
  - rewrite ignore_world. pose proof (render_map_cases w) as Hcases.
    destruct (map (self w)) as [m |]; rewrite Hcases; simpl; [| done].
    repeat split; try done. by apply prefix_app_r.
  - done.
  - unfold trigger_map_camera_update, m_bind, get_self, m_ret,
      schedule_update_ha_state.
    destruct (map_camera (self w)); simpl; [| done].
    repeat split; try done. by apply prefix_app_r.
Qed.

(** X19: there is no image without a map, and a map once loaded stays:
    starting from a freshly constructed device, after any sequence of
    requests, [load_maps], [render_map], [register_map_camera] and
    [trigger_map_camera_update], the image buffer is [None] as long as no
    map is loaded; and from any world, none of these calls takes a
    loaded map away. *)
Theorem no_image_without_map (cs : list call)
    (inherited : option (gmap string scalar))
    (thing_name thing_nickname thing_sub_type : string)
    (thing_status : gmap string scalar) (w : world) :
  (map (self (make_calls cs
                (init_world (init inherited thing_name thing_nickname
                               thing_sub_type thing_status)))) = None ->
   map_image_buffer
     (self (make_calls cs
              (init_world (init inherited thing_name thing_nickname
                             thing_sub_type thing_status)))) = None)
  /\ (is_Some (map (self w)) -> is_Some (map (self (make_calls cs w)))).
Proof.
  split.
  - assert (Hinv : forall w0,
              (map (self w0) = None -> map_image_buffer (self w0) = None) ->
              map (self (make_calls cs w0)) = None ->
              map_image_buffer (self (make_calls cs w0)) = None).
    { unfold make_calls. induction cs as [| c cs IH]; intros w0 Hcur; [done |].
      simpl. apply IH. by apply make_call_map_kept. }
    apply Hinv. done.
  - unfold make_calls. revert w. induction cs as [| c cs IH]; intros w Hmap;
      [done |].
    simpl. apply IH. by apply make_call_map_kept.
Qed.

(** X20: the status is read, never written, by the requests and the map
    methods: across any sequence of the thirteen requests, [load_maps],
    [render_map], [register_map_camera] and [trigger_map_camera_update]
    the status report, name, nickname and sub type stay the same, and the
    commands sent and the camera notifications only grow at the end.
    [watch_state], which hands over to the refresh handler of the base
    class, is not among these calls. *)
Theorem calls_keep_status_and_history (cs : list call) (w : world) :
  robot_status (self (make_calls cs w)) = robot_status (self w)
  /\ name (self (make_calls cs w)) = name (self w)
  /\ nickname (self (make_calls cs w)) = nickname (self w)
  /\ sub_type (self (make_calls cs w)) = sub_type (self w)
  /\ sent w `prefix_of` sent (make_calls cs w)
  /\ camera_updates w `prefix_of` camera_updates (make_calls cs w).
Proof.
  unfold make_calls. revert w. induction cs as [| c cs IH]; intros w.
  - done.
  - simpl.
    destruct (IH (make_call c w).2) as (-> & -> & -> & -> & Hs & Hc).
    destruct (make_call_frame c w) as (-> & -> & -> & -> & Hs' & Hc').
    repeat split; try done; by etrans.
Qed.

End Calls.

Section IdleDevice.
Context `{WebackWssCtrl} `{MapDrawing}.

(** X21: a device that has not reported [working_status] counts as idle:
    when [IDLE_MODE] is not one of the [CLEANING_STATES], every
    [set_fan_water_speed] on it is dropped, allowed speed or not, and
    the device is neither cleaning nor, unless [IDLE_MODE] is a charging
    state, charging. *)
Theorem speed_dropped_without_working_status (w : world) (speed : scalar) :
  robot_status (self w) !! "working_status" = None ->
  py_in IDLE_MODE CLEANING_STATES = false ->
  set_fan_water_speed speed w = (Ok tt, w)
  /\ is_cleaning (self w) = false
  /\ is_charging (self w) = py_in IDLE_MODE CHARGING_STATES.
Proof.
  intros Hmode Hidle.
  assert (Hcur : current_mode (self w) = IDLE_MODE).
  { unfold current_mode. by rewrite Hmode. }
  assert (Hclean : is_cleaning (self w) = false).
  { unfold is_cleaning. by rewrite Hcur. }
  split; [| split; [done |]].
  - apply set_fan_water_speed_rejected. by rewrite Hclean.
  - unfold is_charging. by rewrite Hcur.
Qed.

End IdleDevice.

(** ** The further properties on the sample device *)

Lemma vacuum_or_mop_read_back_witness :
  @MOP_ON sample_ctrl <> @VACUUM_ON sample_ctrl
  /\ @MOP_ON sample_ctrl <> @NO_FAN_NO_MOP sample_ctrl
  /\ @VACUUM_ON sample_ctrl <> @NO_FAN_NO_MOP sample_ctrl
  /\ vacuum_or_mop (H := sample_ctrl)
       (sample_device
          {[ "fan_status" := SStr "None"; "water_level" := SStr "Low" ]})
     = Ok 1
  /\ vacuum_or_mop (H := sample_ctrl)
       (sample_device {[ "fan_status" := SStr "Quiet" ]})
     = Ok (-1).
Proof.
  assert (Hmv : @MOP_ON sample_ctrl <> @VACUUM_ON sample_ctrl) by discriminate.
  assert (Hmn : @MOP_ON sample_ctrl <> @NO_FAN_NO_MOP sample_ctrl)
    by discriminate.
  assert (Hvn : @VACUUM_ON sample_ctrl <> @NO_FAN_NO_MOP sample_ctrl)
    by discriminate.
  split; [exact Hmv | split; [exact Hmn | split; [exact Hvn | split]]].
  - apply (proj1 (vacuum_or_mop_read_back (H := sample_ctrl)
             (sample_device
                {[ "fan_status" := SStr "None"; "water_level" := SStr "Low" ]})
             Hmv Hmn Hvn)).
    split; [by exists (SStr "None") |].
    split; [by exists (SStr "Low") |].
    split; reflexivity.
  - apply (proj2 (vacuum_or_mop_read_back (H := sample_ctrl)
             (sample_device {[ "fan_status" := SStr "Quiet" ]})
             Hmv Hmn Hvn)).
    reflexivity.
Defined.

Lemma properties_on_sparse_status_witness :
  (forall k, k ∈ ["working_status"; "connected"; "error_info";
                  "battery_level"; "fan_status"; "water_level";
                  "clean_time"; "clean_area"] ->
             robot_status (sample_device ∅) !! k = None)
  /\ battery_level (sample_device ∅) = Ok 0
  /\ vacuum_or_mop (H := sample_ctrl) (sample_device ∅) = Ok (-1)
  /\ is_cleaning (H := sample_ctrl) (sample_device ∅) = false.
Proof.
  assert (Hnone : forall k,
            k ∈ ["working_status"; "connected"; "error_info";
                 "battery_level"; "fan_status"; "water_level";
                 "clean_time"; "clean_area"] ->
            robot_status (sample_device ∅) !! k = None).
  { intros k _. reflexivity. }
  destruct (properties_on_sparse_status (H := sample_ctrl) (sample_device ∅)
              Hnone)
    as (_ & _ & _ & Hbat & _ & _ & _ & _ & Hvac & Hclean & _).
  split; [exact Hnone | split; [exact Hbat | split; [exact Hvac |]]].
  rewrite Hclean. reflexivity.
Defined.

Lemma clean_zone_short_box_witness :
  Forall (Forall coordinate_in_range) [[0; 0; 20; 30]; [5; 5; 9]; [1; 2; 3; 4]]
  /\ Exists (fun box => (length box < 4)%nat)
       [[0; 0; 20; 30]; [5; 5; 9]; [1; 2; 3; 4]]
  /\ clean_zone (H := sample_ctrl)
       [[0; 0; 20; 30]; [5; 5; 9]; [1; 2; 3; 4]] (sample_world ∅)
     = (Raise IndexError, sample_world ∅).
Proof.
  assert (Hrange : Forall (Forall coordinate_in_range)
                     [[0; 0; 20; 30]; [5; 5; 9]; [1; 2; 3; 4]]).
  { repeat constructor. }
  assert (Hshort : Exists (fun box => (length box < 4)%nat)
                     [[0; 0; 20; 30]; [5; 5; 9]; [1; 2; 3; 4]]).
  { apply Exists_cons_tl. apply Exists_cons_hd. simpl. lia. }
  split; [exact Hrange | split; [exact Hshort |]].
  apply (clean_zone_short_box (H := sample_ctrl) _ (sample_world ∅)
           Hrange Hshort).
Defined.

Lemma scaled_coord_exact_reach_witness :
  [0; 0; -11258999068426248; 7] !! 2%nat = Some (-11258999068426248)
  /\ scaled_coord [0; 0; -11258999068426248; 7] 2 = Ok (-1125899906842624).
Proof.
  split; [reflexivity |].
  apply (proj1 (scaled_coord_exact_reach
                  [0; 0; -11258999068426248; 7] 2 (-11258999068426248)));
    [reflexivity | lia].
Defined.

Lemma zone_loop_oriented_witness :
  Forall (fun c => - 11258999068426248 <= c <= 11258999068426248)
         [-25; 0; 20; 30]
  /\ exists a b c d,
       zone_loop [[-25; 0; 20; 30]] [] [] = Ok ([a; a; b; b], [c; d; d; c])
       /\ a <= b /\ c <= d.
Proof.
  assert (Hreach : Forall (fun c => - 11258999068426248 <= c
                                    <= 11258999068426248) [-25; 0; 20; 30]).
  { repeat constructor; lia. }
  split; [exact Hreach |].
  destruct (zone_loop_oriented (-25) 0 20 30 Hreach)
    as (a & b & c & d & Hloop & Hx & Hy & _).
  exists a, b, c, d. split; [exact Hloop |].
  split; [apply Hx; lia | apply Hy; lia].
Defined.

Lemma battery_level_reads_number_witness :
  all_spaces " " = true
  /\ (count_digits (decimal_string 87) <= max_str_digits)%N
  /\ battery_level (sample_device {[ "battery_level" := SStr " 87 " ]}) = Ok 87
  /\ battery_level (sample_device {[ "battery_level" := SInt 250 ]}) = Ok 250.
Proof.
  assert (Hws : all_spaces " " = true) by reflexivity.
  assert (Hfew : (count_digits (decimal_string 87) <= max_str_digits)%N)
    by (vm_compute; discriminate).
  split; [exact Hws | split; [exact Hfew | split]].
  - apply (proj2 (proj2 (battery_level_reads_number
             (sample_device {[ "battery_level" := SStr " 87 " ]}) 87))
             " " " " Hws Hws Hfew).
    reflexivity.
  - apply (proj1 (battery_level_reads_number
             (sample_device {[ "battery_level" := SInt 250 ]}) 250)).
    reflexivity.
Defined.

Lemma last_registered_camera_wins_witness :
  map (self sample_world_with_map) = Some sample_map
  /\ camera_updates
       (render_map
          (register_map_camera 2
             (register_map_camera 1 sample_world_with_map).2).2).2
     = [2%nat].
Proof.
  split; [reflexivity |].
  apply (proj1 (last_registered_camera_wins sample_world_with_map sample_map
                  1 2 eq_refl)).
Defined.

Lemma load_maps_return_value_witness :
  robot_status (self (sample_world {[ "active_map_id" := SInt 1 ]}))
    !! "active_map_id" = Some (SInt 1)
  /\ (load_maps (H1 := sample_loading)
        (sample_world {[ "active_map_id" := SInt 1 ]})).1 = Ok None
  /\ (load_maps (H1 := sample_loading) (sample_world ∅)).1 = Ok (Some false).
Proof.
  split; [reflexivity | split].
  - apply (proj2 (proj2 (load_maps_return_value (H1 := sample_loading)
             (sample_world {[ "active_map_id" := SInt 1 ]})))
             (SInt 1) sample_grid
             (@Build_VacMap sample_drawing sample_grid (0, 0) (4, 2)
                [(0, 0); (3, 0); (4, 2)]));
      reflexivity.
  - apply (proj1 (load_maps_return_value (H1 := sample_loading)
             (sample_world ∅))).
    reflexivity.
Defined.

Lemma speed_dropped_without_working_status_witness :
  robot_status (self (sample_world {[ "connected" := SStr "true" ]}))
    !! "working_status" = None
  /\ py_in (@IDLE_MODE sample_ctrl) (@CLEANING_STATES sample_ctrl) = false
  /\ set_fan_water_speed (H := sample_ctrl) (SStr "Quiet")
       (sample_world {[ "connected" := SStr "true" ]})
     = (Ok tt, sample_world {[ "connected" := SStr "true" ]}).
Proof.
  assert (Hmode : robot_status
                     (self (sample_world {[ "connected" := SStr "true" ]}))
                     !! "working_status" = None) by reflexivity.
  assert (Hidle : py_in (@IDLE_MODE sample_ctrl) (@CLEANING_STATES sample_ctrl)
                  = false) by reflexivity.
  split; [exact Hmode | split; [exact Hidle |]].
  apply (proj1 (speed_dropped_without_working_status (H := sample_ctrl)
                  (sample_world {[ "connected" := SStr "true" ]})
                  (SStr "Quiet") Hmode Hidle)).
Defined.

Lemma render_map_effects_witness :
  (render_map sample_world_with_map).1 = Ok true
  /\ camera_updates (render_map sample_world_with_map).2 = [7%nat]
  /\ ((render_map (sample_world ∅)).1 = Ok false).
Proof.
  assert (Htrue : (render_map sample_world_with_map).1 = Ok true)
    by reflexivity.
  split; [exact Htrue | split].
  - destruct (proj1 (proj2 (proj2 (render_map_effects sample_world_with_map)))
                Htrue) as (m & _ & Hcam & _).
    rewrite Hcam. reflexivity.
  - apply (proj1 (render_map_effects (sample_world ∅))). reflexivity.
Defined.

Lemma load_maps_failure_paths_witness :
  load_maps (H1 := sample_loading) (sample_world ∅)
    = (Ok (Some false), sample_world ∅)
  /\ load_maps (H1 := sample_loading)
       (sample_world {[ "active_map_id" := SInt 0 ]})
     = (Ok None, sample_world {[ "active_map_id" := SInt 0 ]})
  /\ load_maps (H1 := sample_loading)
       (sample_world {[ "active_map_id" := SInt 5 ]})
     = (Raise (TransportError 404),
        sample_world {[ "active_map_id" := SInt 5 ]}).
Proof.
  split; [| split].
  - apply (proj1 (load_maps_failure_paths (H1 := sample_loading)
                    (sample_world ∅))).
    reflexivity.
  - assert (Hid : robot_status
                    (self (sample_world {[ "active_map_id" := SInt 0 ]}))
                    !! "active_map_id" = Some (SInt 0)) by reflexivity.
    apply (proj1 (proj2 (proj2 (load_maps_failure_paths (H1 := sample_loading)
             (sample_world {[ "active_map_id" := SInt 0 ]})) (SInt 0) Hid))).
    reflexivity.
  - assert (Hid : robot_status
                    (self (sample_world {[ "active_map_id" := SInt 5 ]}))
                    !! "active_map_id" = Some (SInt 5)) by reflexivity.
    apply (proj1 (proj2 (load_maps_failure_paths (H1 := sample_loading)
             (sample_world {[ "active_map_id" := SInt 5 ]})) (SInt 5) Hid)
             (TransportError 404)).
    reflexivity.
Defined.

Lemma no_image_without_map_witness :
  map (self (make_calls (H := sample_ctrl) (H1 := sample_loading)
               [Request TurnOn; RenderMap; RegisterMapCamera 3; LoadMaps]
               (init_world (init None "robot-1" "Robot" "vacuum" ∅)))) = None
  /\ map_image_buffer
       (self (make_calls (H := sample_ctrl) (H1 := sample_loading)
                [Request TurnOn; RenderMap; RegisterMapCamera 3; LoadMaps]
                (init_world (init None "robot-1" "Robot" "vacuum" ∅)))) = None
  /\ is_Some (map (self (make_calls (H := sample_ctrl) (H1 := sample_loading)
                           [RenderMap; Request Pause]
                           sample_world_with_map))).
Proof.
  assert (Hnone : map (self (make_calls (H := sample_ctrl)
                               (H1 := sample_loading)
                               [Request TurnOn; RenderMap;
                                RegisterMapCamera 3; LoadMaps]
                               (init_world
                                  (init None "robot-1" "Robot" "vacuum" ∅))))
                  = None) by reflexivity.
  split; [exact Hnone | split].
  - apply (proj1 (no_image_without_map (H := sample_ctrl)
                    (H1 := sample_loading)
                    [Request TurnOn; RenderMap; RegisterMapCamera 3; LoadMaps]
                    None "robot-1" "Robot" "vacuum" ∅ sample_world_with_map)
             Hnone).
  - apply (proj2 (no_image_without_map (H := sample_ctrl)
                    (H1 := sample_loading) [RenderMap; Request Pause]
                    None "robot-1" "Robot" "vacuum" ∅ sample_world_with_map)).
    by exists sample_map.
Defined.
